(** * Descriptive statistics of the [/analyze/] endpoint (src/main.py)

    A shallow embedding of [analyze_data] and of the pandas / numpy
    operations it calls, followed by the properties of the report it
    builds.

    Conventions of the embedding.
    - A [DataFrame] is what [pd.read_sql_query] hands over: an ordered list
      of named, typed columns ([Series]) and a row count.
    - A float64 value is [Fin q] for a rational [q], one of the two
      infinities, or [NaN]; arithmetic on finite values is exact (rounding
      is outside the model).  [NaN] is pandas' null marker of a float
      column, [None] the one of an object column and [NaT] the one of a
      datetime column.
    - Python dictionaries are finite maps keyed by strings.
    - An uncaught Python exception is the [Raise] outcome. *)

From Stdlib Require Import QArith Qround Lqa Lia.
From stdpp Require Import gmap strings pretty list fin_maps sorting.

Local Open Scope string_scope.
Local Open Scope list_scope.
Local Open Scope nat_scope.

(* ===================================================================== *)
(** * Floating-point values *)
(* ===================================================================== *)

Inductive float : Type :=
| Fin (q : Q)
| PInf
| NInf
| NaN.

Definition isnan (x : float) : bool :=
  match x with NaN => true | _ => false end.

Definition isfinite (x : float) : bool :=
  match x with Fin _ => true | _ => false end.

Definition fopp (x : float) : float :=
  match x with
  | Fin q => Fin (- q)
  | PInf => NInf
  | NInf => PInf
  | NaN => NaN
  end.

Definition fadd (x y : float) : float :=
  match x, y with
  | NaN, _ | _, NaN => NaN
  | Fin a, Fin b => Fin (a + b)
  | PInf, NInf | NInf, PInf => NaN
  | PInf, _ | _, PInf => PInf
  | NInf, _ | _, NInf => NInf
  end.

Definition fsub (x y : float) : float := fadd x (fopp y).

(** Sign of a rational: [Lt], [Eq] or [Gt] with respect to zero. *)
Definition Qsign (q : Q) : comparison := (q ?= 0)%Q.

Definition fmul (x y : float) : float :=
  match x, y with
  | NaN, _ | _, NaN => NaN
  | Fin a, Fin b => Fin (a * b)
  | Fin a, PInf | PInf, Fin a =>
      match Qsign a with Gt => PInf | Lt => NInf | Eq => NaN end
  | Fin a, NInf | NInf, Fin a =>
      match Qsign a with Gt => NInf | Lt => PInf | Eq => NaN end
  | PInf, PInf | NInf, NInf => PInf
  | PInf, NInf | NInf, PInf => NaN
  end.

(** IEEE division: anything over [NaN] is [NaN], a finite value over zero
    is an infinity of its sign ([NaN] for [0 / 0]), a finite value over an
    infinity is zero. *)
Definition fdiv (x y : float) : float :=
  match x, y with
  | NaN, _ | _, NaN => NaN
  | Fin a, Fin b =>
      match Qsign b with
      | Eq => match Qsign a with Gt => PInf | Lt => NInf | Eq => NaN end
      | _ => Fin (a / b)
      end
  | Fin _, _ => Fin 0
  | PInf, Fin b => match Qsign b with Lt => NInf | _ => PInf end
  | NInf, Fin b => match Qsign b with Lt => PInf | _ => NInf end
  | _, _ => NaN
  end.

(** [x <= y] on floats; false as soon as one side is [NaN]. *)
Definition fle (x y : float) : bool :=
  match x, y with
  | NaN, _ | _, NaN => false
  | NInf, _ | _, PInf => true
  | Fin a, Fin b => Qle_bool a b
  | _, _ => false
  end.

Definition flt (x y : float) : bool :=
  match x, y with
  | NaN, _ | _, NaN => false
  | Fin a, Fin b => negb (Qle_bool b a)
  | NInf, NInf | PInf, PInf => false
  | NInf, _ | _, PInf => true
  | _, _ => false
  end.

Definition feqb (x y : float) : bool :=
  match x, y with
  | Fin a, Fin b => Qeq_bool a b
  | PInf, PInf | NInf, NInf => true
  | _, _ => false
  end.

Definition of_nat (n : nat) : float := Fin (inject_Z (Z.of_nat n)).
Definition of_int (z : Z) : float := Fin (inject_Z z).

(** The square root of a float is not rational in general: a standard
    deviation is kept as the radicand it is the root of. *)
Inductive root : Type :=
| Sqrt (radicand : float).

(* ===================================================================== *)
(** * Exceptions and outcomes *)
(* ===================================================================== *)

Inductive exn : Type :=
| HTTPException (status_code : Z) (detail : string)
| ValueError
| KeyError (key : string)
| IndexError
| DatabaseError.

Inductive result (A : Type) : Type :=
| Return (a : A)
| Raise (e : exn).
Arguments Return {A} a.
Arguments Raise {A} e.

Global Instance result_ret : MRet result := fun A a => Return a.
Global Instance result_bind : MBind result := fun A B k r =>
  match r with
  | Return a => k a
  | Raise e => Raise e
  end.

(* ===================================================================== *)
(** * Columns and tables *)
(* ===================================================================== *)

(** numpy's scalar type hierarchy, as far as the column types of a SQL
    result reach into it. *)
Inductive np_type : Type :=
| np_generic
| np_number
| np_integer
| np_signedinteger
| np_int64
| np_inexact
| np_floating
| np_float64
| np_object_
| np_datetime64.

Global Instance np_type_eq_dec : EqDecision np_type.
Proof. solve_decision. Defined.

(** The direct base class of a scalar type ([np.generic] has none). *)
Definition base (t : np_type) : option np_type :=
  match t with
  | np_generic => None
  | np_number => Some np_generic
  | np_integer => Some np_number
  | np_signedinteger => Some np_integer
  | np_int64 => Some np_signedinteger
  | np_inexact => Some np_number
  | np_floating => Some np_inexact
  | np_float64 => Some np_floating
  | np_object_ => Some np_generic
  | np_datetime64 => Some np_generic
  end.

(** [issubclass t u]: walk up the chain of base classes of [t]; the
    hierarchy is five levels deep. *)
Fixpoint issubclass_fuel (fuel : nat) (t u : np_type) : bool :=
  if decide (t = u) then true
  else match fuel, base t with
       | S fuel', Some t' => issubclass_fuel fuel' t' u
       | _, _ => false
       end.

Definition issubclass (t u : np_type) : bool := issubclass_fuel 5 t u.

(** The storage types of the columns of a data frame read from SQL. *)
Inductive dtype : Type :=
| int64
| float64
| object_
| datetime64_ns.

Global Instance dtype_eq_dec : EqDecision dtype.
Proof. solve_decision. Defined.

(** [dtype.type] *)
Definition dtype_type (d : dtype) : np_type :=
  match d with
  | int64 => np_int64
  | float64 => np_float64
  | object_ => np_object_
  | datetime64_ns => np_datetime64
  end.

(** [str(dtype)] *)
Definition dtype_str (d : dtype) : string :=
  match d with
  | int64 => "int64"
  | float64 => "float64"
  | object_ => "object"
  | datetime64_ns => "datetime64[ns]"
  end.

(** A [DateTime] cell, to the microsecond the database stores. *)
Record Timestamp : Type := mkTimestamp {
  year : nat; month : nat; day : nat;
  hour : nat; minute : nat; second : nat;
  microsecond : nat
}.

Global Instance Timestamp_eq_dec : EqDecision Timestamp.
Proof. solve_decision. Defined.

(** The cells of a column, by storage type.  An int64 array cannot hold a
    null; a float64 array holds [NaN], an object array [None] and a
    datetime array [NaT] (both [None] here). *)
Inductive array : Type :=
| Int64 (xs : list Z)
| Float64 (xs : list float)
| Object (xs : list (option string))
| Datetime64 (xs : list (option Timestamp)).

Record Series : Type := mkSeries {
  name : string;
  data : array
}.

Record DataFrame : Type := mkDataFrame {
  nrows : nat;
  series : list Series
}.

Definition array_dtype (a : array) : dtype :=
  match a with
  | Int64 _ => int64
  | Float64 _ => float64
  | Object _ => object_
  | Datetime64 _ => datetime64_ns
  end.

Definition series_dtype (s : Series) : dtype := array_dtype (data s).

(** [len(s)] *)
Definition series_len (s : Series) : nat :=
  match data s with
  | Int64 xs => length xs
  | Float64 xs => length xs
  | Object xs => length xs
  | Datetime64 xs => length xs
  end.

(** Every column of a data frame has one cell per row. *)
Definition rectangular (df : DataFrame) : Prop :=
  Forall (fun s => series_len s = nrows df) (series df).

(** [df.columns] *)
Definition df_columns (df : DataFrame) : list string := name <$> series df.

(** Column names of a SQL result are pairwise distinct. *)
Definition unique_columns (df : DataFrame) : Prop := NoDup (df_columns df).

(** [df[col]]: the column of that name, [KeyError] when there is none. *)
Definition getitem (df : DataFrame) (col : string) : result Series :=
  match list_find (fun s => name s = col) (series df) with
  | Some (_, s) => Return s
  | None => Raise (KeyError col)
  end.

(** [df.select_dtypes(include=[t])] and [df.select_dtypes(exclude=[t])]:
    the columns whose scalar type is, respectively is not, a subclass of
    [t], in their original order. *)
Definition select_dtypes_include (t : np_type) (df : DataFrame) : DataFrame :=
  {| nrows := nrows df;
     series := filter (fun s => issubclass (dtype_type (series_dtype s)) t = true)
                      (series df) |}.

Definition select_dtypes_exclude (t : np_type) (df : DataFrame) : DataFrame :=
  {| nrows := nrows df;
     series := filter (fun s => issubclass (dtype_type (series_dtype s)) t ≠ true)
                      (series df) |}.

(* ===================================================================== *)
(** * Null handling *)
(* ===================================================================== *)

(** [s.isnull().sum()]: the number of null cells of a column. *)
Definition isnull_sum (s : Series) : nat :=
  match data s with
  | Int64 _ => 0
  | Float64 xs => length (filter (fun x => isnan x = true) xs)
  | Object xs => length (filter (fun o => o = None) xs)
  | Datetime64 xs => length (filter (fun o => o = None) xs)
  end.

(** [s.dropna()] of a numeric column, as the float array numpy works on.
    Non-numeric columns never reach it. *)
Definition to_floats (s : Series) : list float :=
  match data s with
  | Int64 xs => of_int <$> xs
  | Float64 xs => xs
  | _ => []
  end.

Definition dropna (xs : list float) : list float :=
  filter (fun x => isnan x = false) xs.

(** A value of a categorical column, once nulls are dropped. *)
Inductive pyval : Type :=
| VStr (s : string)
| VTime (t : Timestamp).

Global Instance pyval_eq_dec : EqDecision pyval.
Proof. solve_decision. Defined.

(** The non-null cells of a categorical column seen as Python values, in
    row order.  Numeric columns never reach it. *)
Definition non_null_values (s : Series) : list pyval :=
  match data s with
  | Object xs => omap (fmap VStr) xs
  | Datetime64 xs => omap (fmap VTime) xs
  | Int64 _ | Float64 _ => []
  end.

(** [s.count()]: the number of non-null cells of a column. *)
Definition count (s : Series) : nat :=
  match data s with
  | Int64 xs => length xs
  | Float64 xs => length (dropna xs)
  | Object xs => length (omap id xs)
  | Datetime64 xs => length (omap id xs)
  end.

(* ===================================================================== *)
(** * numpy: reductions, [linspace], [bincount], [histogram] *)
(* ===================================================================== *)

Definition fmin (x y : float) : float := if fle x y then x else y.
Definition fmax (x y : float) : float := if fle x y then y else x.

Definition fsum (xs : list float) : float := foldl fadd (Fin 0) xs.

(** [a.min()] and [a.max()]; numpy refuses an empty array. *)
Definition amin (a : list float) : result float :=
  match a with
  | [] => Raise ValueError
  | x :: a' => Return (foldl fmin x a')
  end.

Definition amax (a : list float) : result float :=
  match a with
  | [] => Raise ValueError
  | x :: a' => Return (foldl fmax x a')
  end.

(** [_get_outer_edges(a, range=None)] of numpy/lib/histograms.py. *)
Definition get_outer_edges (a : list float) : result (float * float) :=
  '(first_edge, last_edge) ←
    match a with
    | [] => Return (Fin 0, Fin 1)
    | _ =>
        lo ← amin a;
        hi ← amax a;
        if isfinite lo && isfinite hi then Return (lo, hi)
        else Raise ValueError
    end;
  if feqb first_edge last_edge
  then Return (fsub first_edge (Fin (1 # 2)), fadd last_edge (Fin (1 # 2)))
  else Return (first_edge, last_edge).

(** [np.linspace(start, stop, num, endpoint=True)] for [num > 1]: the
    points [start + i * step], the last one overwritten with [stop]. *)
Definition linspace (start stop : float) (num : nat) : list float :=
  let div := pred num in
  let step := fdiv (fsub stop start) (of_nat div) in
  ((fun i => fadd (fmul (of_nat i) step) start) <$> seq 0 div) ++ [stop].

(** [x.astype(np.intp)]: truncation toward zero.  A non-finite value
    converts to the most negative integer. *)
Definition astype_intp (x : float) : Z :=
  match x with
  | Fin q => if Qle_bool 0 q then Qfloor q else Qceiling q
  | _ => - 2 ^ 63
  end.

(** [arr[i]] for a signed index: negative indices count from the end,
    anything outside raises [IndexError]. *)
Definition item (arr : list float) (i : Z) : result float :=
  let j := if (0 <=? i)%Z then i else (Z.of_nat (length arr) + i)%Z in
  if (0 <=? j)%Z then
    match arr !! Z.to_nat j with
    | Some x => Return x
    | None => Raise IndexError
    end
  else Raise IndexError.

(** [np.bincount(indices, minlength)]: occurrences of [0], [1], ... among
    the indices; negative indices are refused. *)
Definition bincount (indices : list Z) (minlength : nat) : result (list nat) :=
  if forallb (fun i => (0 <=? i)%Z) indices then
    let n := Nat.max minlength (S (Z.to_nat (foldr Z.max (-1)%Z indices))) in
    Return ((fun b => length (filter (fun i => i = Z.of_nat b) indices)) <$> seq 0 n)
  else Raise ValueError.

(** The bin of one kept value: the scaled offset truncated, the right
    edge folded into the last bin, then the two corrections against the
    computed edges. *)
Definition bin_index (first_edge last_edge : float) (bin_edges : list float)
    (n_equal_bins : nat) (x : float) : result Z :=
  let norm_numerator := of_nat n_equal_bins in
  let norm_denom := fsub last_edge first_edge in
  let f_index := fmul (fdiv (fsub x first_edge) norm_denom) norm_numerator in
  let index := astype_intp f_index in
  let index := if decide (index = Z.of_nat n_equal_bins) then (index - 1)%Z else index in
  lower ← item bin_edges index;
  let index := if flt x lower then (index - 1)%Z else index in
  upper ← item bin_edges (index + 1);
  let index :=
    if fle upper x && negb (bool_decide (index = (Z.of_nat n_equal_bins - 1)%Z))
    then (index + 1)%Z else index in
  Return index.

(** [np.histogram(a, bins)] for an integer number of bins: the counts and
    the [bins + 1] edges. *)
Definition histogram (a : list float) (bins : nat) : result (list nat * list float) :=
  '(first_edge, last_edge) ← get_outer_edges a;
  let bin_edges := linspace first_edge last_edge (S bins) in
  let keep := filter (fun x => fle first_edge x && fle x last_edge = true) a in
  indices ← mapM (bin_index first_edge last_edge bin_edges bins) keep;
  counts ← bincount indices bins;
  if decide (length counts = bins) then Return (counts, bin_edges)
  else Raise ValueError.

(* ===================================================================== *)
(** * Sorting *)
(* ===================================================================== *)

(** A stable insertion sort: an element goes in front of the first one it
    is [le] to, so among equivalent elements the one inserted last (the
    earliest of the input) comes first. *)
Fixpoint insert {A : Type} (le : A -> A -> bool) (x : A) (l : list A) : list A :=
  match l with
  | [] => [x]
  | y :: l' => if le x y then x :: y :: l' else y :: insert le x l'
  end.

Definition sort {A : Type} (le : A -> A -> bool) (l : list A) : list A :=
  foldr (insert le) [] l.

(** numpy's sort order on floats: [NaN] after everything else. *)
Definition float_le (x y : float) : bool :=
  match x, y with
  | _, NaN => true
  | NaN, _ => false
  | _, _ => fle x y
  end.

(* ===================================================================== *)
(** * pandas: reductions of a numeric column *)
(* ===================================================================== *)

(** [nanops.nanmean]: the sum of the non-null values over their count. *)
Definition nanmean (xs : list float) : float :=
  let a := dropna xs in
  let count := length a in
  let the_sum := fsum a in
  if decide (0 < count) then fdiv the_sum (of_nat count) else NaN.

(** [np.nanmedian] on the non-null values: the middle of the sorted
    values, or the mean of the two middle ones. *)
Definition nanmedian (xs : list float) : float :=
  let a := dropna xs in
  match a with
  | [] => NaN
  | _ =>
      let part := sort float_le a in
      let sz := length part in
      let index := sz / 2 in
      if Nat.odd sz then default NaN (part !! index)
      else fdiv (fadd (default NaN (part !! (index - 1)))
                      (default NaN (part !! index))) (Fin 2)
  end.

(** [nanops.nanvar]: the squared deviations from the mean over
    [count - ddof]; [NaN] when [count <= ddof]. *)
Definition nanvar (xs : list float) (ddof : nat) : float :=
  let a := dropna xs in
  let n := length a in
  let '(count, d) :=
    if decide (n <= ddof) then (NaN, NaN) else (of_nat n, of_nat (n - ddof)) in
  let avg := fdiv (fsum a) count in
  let sqr := (fun x => let dev := fsub avg x in fmul dev dev) <$> a in
  fdiv (fsum sqr) d.

(** [nanops.nanstd] *)
Definition nanstd (xs : list float) (ddof : nat) : root := Sqrt (nanvar xs ddof).

(** [nanops.nanmin], [nanops.nanmax]: [NaN] when nothing is left. *)
Definition nanmin (xs : list float) : float :=
  match dropna xs with
  | [] => NaN
  | x :: a => foldl fmin x a
  end.

Definition nanmax (xs : list float) : float :=
  match dropna xs with
  | [] => NaN
  | x :: a => foldl fmax x a
  end.

Definition Series_mean (s : Series) : float := nanmean (to_floats s).
Definition Series_median (s : Series) : float := nanmedian (to_floats s).
Definition Series_std (s : Series) : root := nanstd (to_floats s) 1.
Definition Series_min (s : Series) : float := nanmin (to_floats s).
Definition Series_max (s : Series) : float := nanmax (to_floats s).

(* ===================================================================== *)
(** * pandas: frequencies of a categorical column *)
(* ===================================================================== *)

(** [f"{n:0{width}d}"] *)
Definition zfill (width : nat) (n : nat) : string :=
  let digits := pretty n in
  String.concat "" (replicate (width - String.length digits) "0") +:+ digits.

(** [str(x)] of a cell value; a timestamp prints in ISO format with a
    space between date and time, microseconds only when there are some. *)
Definition py_str (v : pyval) : string :=
  match v with
  | VStr s => s
  | VTime t =>
      zfill 4 (year t) +:+ "-" +:+ zfill 2 (month t) +:+ "-" +:+ zfill 2 (day t)
      +:+ " " +:+ zfill 2 (hour t) +:+ ":" +:+ zfill 2 (minute t)
      +:+ ":" +:+ zfill 2 (second t)
      +:+ (if decide (microsecond t = 0) then ""
           else "." +:+ zfill 6 (microsecond t))
  end.

(** The hash table of [value_counts]: one slot per distinct value, in
    the order the values are first met, each with its occurrence count. *)
Fixpoint incr (k : pyval) (table : list (pyval * nat)) : list (pyval * nat) :=
  match table with
  | [] => [(k, 1)]
  | (k', n) :: table' =>
      if decide (k = k') then (k', S n) :: table'
      else (k', n) :: incr k table'
  end.

Definition value_count (vs : list pyval) : list (pyval * nat) :=
  foldl (fun table v => incr v table) [] vs.

(** [s.value_counts()]: nulls dropped, most frequent value first. *)
Definition Series_value_counts (s : Series) : list (pyval * nat) :=
  sort (fun a b => (snd b <=? snd a)%nat) (value_count (non_null_values s)).

(** [s.unique()] without the nulls, in first-seen order. *)
Definition unique (vs : list pyval) : list pyval :=
  foldl (fun seen v => if decide (v ∈ seen) then seen else seen ++ [v]) [] vs.

(** [s.nunique()] *)
Definition Series_nunique (s : Series) : nat := length (unique (non_null_values s)).

(** [.head(n)] *)
Definition head {A : Type} (n : nat) (l : list A) : list A := take n l.

(* ===================================================================== *)
(** * The report *)
(* ===================================================================== *)

Record BasicInfo : Type := mkBasicInfo {
  total_rows : nat;
  total_columns : nat;
  numeric_columns : nat;
  categorical_columns : nat;
  columns : list string
}.

Record NumericStats : Type := mkNumericStats {
  mean : float;
  median : float;
  std : root;
  min : float;
  max : float;
  histogram_bins : list float;
  histogram_values : list nat
}.

Record CategoricalStats : Type := mkCategoricalStats {
  value_counts : gmap string nat;
  unique_values : nat;
  labels : list string;
  values : list nat
}.

Record Stats : Type := mkStats {
  basic_info : BasicInfo;
  column_types : gmap string string;
  missing_values : gmap string nat;
  numeric_stats : gmap string NumericStats;
  categorical_stats : gmap string CategoricalStats
}.

(** A dictionary comprehension [{k: v for ...}] over a list of pairs:
    later pairs overwrite earlier ones of the same key. *)
Definition dict {V : Type} (items : list (string * V)) : gmap string V :=
  foldl (fun d kv => <[kv.1 := kv.2]> d) ∅ items.

(** A [for] loop whose body may raise: stops at the first exception. *)
Fixpoint for_each {A S : Type} (body : S -> A -> result S) (l : list A) (st : S)
  : result S :=
  match l with
  | [] => Return st
  | x :: l' => st' ← body st x; for_each body l' st'
  end.

(* ===================================================================== *)
(** * [analyze_data] (src/main.py, lines 121-175) *)
(* ===================================================================== *)

(** The body of the loop over the numeric columns (lines 152-161). *)
Definition numeric_entry (df : DataFrame) (col : string) : result NumericStats :=
  s ← getitem df col;
  '(hist_values, bin_edges) ← histogram (dropna (to_floats s)) 10;
  Return {| mean := Series_mean s;
            median := Series_median s;
            std := Series_std s;
            min := Series_min s;
            max := Series_max s;
            histogram_bins := bin_edges;
            histogram_values := hist_values |}.

(** The body of the loop over the categorical columns (lines 166-172). *)
Definition categorical_entry (df : DataFrame) (col : string) : result CategoricalStats :=
  s ← getitem df col;
  let top := head 10 (Series_value_counts s) in
  Return {| value_counts := dict ((fun kv => (py_str kv.1, kv.2)) <$> top);
            unique_values := Series_nunique s;
            labels := (fun kv => py_str kv.1) <$> top;
            values := snd <$> top |}.

Definition set_numeric_stats (stats : Stats) (col : string) (e : NumericStats) : Stats :=
  {| basic_info := basic_info stats;
     column_types := column_types stats;
     missing_values := missing_values stats;
     numeric_stats := <[col := e]> (numeric_stats stats);
     categorical_stats := categorical_stats stats |}.

Definition set_categorical_stats (stats : Stats) (col : string) (e : CategoricalStats)
  : Stats :=
  {| basic_info := basic_info stats;
     column_types := column_types stats;
     missing_values := missing_values stats;
     numeric_stats := numeric_stats stats;
     categorical_stats := <[col := e]> (categorical_stats stats) |}.

(** The analysis of a table the query handed over (lines 132-175). *)
Definition analyze (df : DataFrame) : result Stats :=
  let numeric_cols := df_columns (select_dtypes_include np_number df) in
  let categorical_cols := df_columns (select_dtypes_exclude np_number df) in
  types ← mapM (fun col => s ← getitem df col;
                           Return (col, dtype_str (series_dtype s)))
               (df_columns df);
  let stats :=
    {| basic_info :=
         {| total_rows := nrows df;
            total_columns := length (df_columns df);
            numeric_columns := length numeric_cols;
            categorical_columns := length categorical_cols;
            columns := df_columns df |};
       column_types := dict types;
       missing_values := dict ((fun s => (name s, isnull_sum s)) <$> series df);
       numeric_stats := ∅;
       categorical_stats := ∅ |} in
  stats ←
    (if decide (0 < length numeric_cols)
     then for_each (fun st col => e ← numeric_entry df col;
                                  Return (set_numeric_stats st col e))
                   numeric_cols stats
     else Return stats);
  stats ←
    (if decide (0 < length categorical_cols)
     then for_each (fun st col => e ← categorical_entry df col;
                                  Return (set_categorical_stats st col e))
                   categorical_cols stats
     else Return stats);
  Return stats.

(** The endpoint: the outcome of [pd.read_sql_query] is its input.  Any
    exception of the query becomes the HTTP 500 error; nothing else is
    caught. *)
Definition analyze_data (query_result : result DataFrame) : result Stats :=
  match query_result with
  | Raise e => Raise (HTTPException 500 "Database query failed")
  | Return df => analyze df
  end.

(* ===================================================================== *)
(** * Classification and the report before the loops *)
(* ===================================================================== *)

(** The classification made by [select_dtypes]. *)
Definition is_numeric (s : Series) : Prop :=
  issubclass (dtype_type (series_dtype s)) np_number = true.

Definition numeric_names (df : DataFrame) : list string :=
  df_columns (select_dtypes_include np_number df).

Definition categorical_names (df : DataFrame) : list string :=
  df_columns (select_dtypes_exclude np_number df).

(** The report before the two loops run (lines 135-147). *)
Definition initial_stats (df : DataFrame) : Stats :=
  {| basic_info :=
       {| total_rows := nrows df;
          total_columns := length (df_columns df);
          numeric_columns := length (numeric_names df);
          categorical_columns := length (categorical_names df);
          columns := df_columns df |};
     column_types :=
       dict ((fun col => (col, match getitem df col with
                               | Return s => dtype_str (series_dtype s)
                               | Raise _ => ""
                               end)) <$> df_columns df);
     missing_values := dict ((fun s => (name s, isnull_sum s)) <$> series df);
     numeric_stats := ∅;
     categorical_stats := ∅ |}.

Definition numeric_loop (df : DataFrame) : list string -> Stats -> result Stats :=
  for_each (fun st col => e ← numeric_entry df col; Return (set_numeric_stats st col e)).

Definition categorical_loop (df : DataFrame) : list string -> Stats -> result Stats :=
  for_each (fun st col => e ← categorical_entry df col;
                          Return (set_categorical_stats st col e)).

(** "Stored as integer or floating-point": the scalar type descends from
    [np.integer] or from [np.floating]. *)
Definition stored_as_integer_or_floating (s : Series) : Prop :=
  issubclass (dtype_type (series_dtype s)) np_integer = true \/
  issubclass (dtype_type (series_dtype s)) np_floating = true.

(* ===================================================================== *)
(** * Finite data and the bins of its histogram *)
(* ===================================================================== *)

Local Open Scope Q_scope.

Definition Qmin_b (x y : Q) : Q := if Qle_bool x y then x else y.
Definition Qmax_b (x y : Q) : Q := if Qle_bool x y then y else x.

(** The sum of a list of rationals, accumulated from the left. *)
Definition Qsum (qs : list Q) : Q := foldl Qplus 0 qs.

(** The outer edges numpy derives from finite data. *)
Definition outer_edges (qs : list Q) : Q * Q :=
  match qs with
  | [] => (0, 1)
  | x :: qs' =>
      let lo := foldl Qmin_b x qs' in
      let hi := foldl Qmax_b x qs' in
      if Qeq_bool lo hi then (lo + - (1 # 2), hi + (1 # 2)) else (lo, hi)
  end.

(** Width of one of the ten bins of the range [[first_edge, last_edge]],
    and the edges [linspace] computes. *)
Definition bin_width (first_edge last_edge : Q) : Q :=
  (last_edge + - first_edge) / inject_Z (Z.of_nat 10).

Definition edge (first_edge last_edge : Q) (i : nat) : Q :=
  if decide (i = 10%nat) then last_edge
  else inject_Z (Z.of_nat i) * bin_width first_edge last_edge + first_edge.

(** The scaled offset of a value, before truncation. *)
Definition scaled (first_edge last_edge x : Q) : Q :=
  (x + - first_edge) / (last_edge + - first_edge) * inject_Z (Z.of_nat 10).

(** The bin a value of the range lands in. *)
Definition bin_of (first_edge last_edge x : Q) : Z :=
  Z.min (Qfloor (scaled first_edge last_edge x)) 9.

Local Open Scope nat_scope.

(** Occurrences of bin [b] among the bins of the values. *)
Definition hist_counts (qs : list Q) : list nat :=
  (fun b => length (filter (fun x => bin_of (outer_edges qs).1 (outer_edges qs).2 x
                                     = Z.of_nat b) qs)) <$> seq 0 10.

Definition hist_edges (qs : list Q) : list float :=
  linspace (Fin (outer_edges qs).1) (Fin (outer_edges qs).2) 11.

(** The finite values of an array, in order. *)
Definition finite_part (a : list float) : list Q :=
  omap (fun x => match x with Fin q => Some q | _ => None end) a.

(** The non-null values of a numeric column, when they are all finite. *)
Definition non_null_numbers (s : Series) : list Q :=
  finite_part (dropna (to_floats s)).

(** No cell of the column is an infinity. *)
Definition no_infinity (s : Series) : Prop :=
  Forall (fun x => isfinite x = true) (dropna (to_floats s)).

(** What the loop body computes for a column without infinities. *)
Definition numeric_summary (s : Series) : NumericStats :=
  {| mean := Series_mean s;
     median := Series_median s;
     std := Series_std s;
     min := Series_min s;
     max := Series_max s;
     histogram_bins := hist_edges (non_null_numbers s);
     histogram_values := hist_counts (non_null_numbers s) |}.

(* ===================================================================== *)
(** * Textbook statistics *)
(* ===================================================================== *)

Local Open Scope Q_scope.



(** The textbook definitions, over a list of values. *)
Definition spec_mean (qs : list Q) : Q :=
  Qsum qs / inject_Z (Z.of_nat (length qs)).






(* ===================================================================== *)
(** * Frequencies and sentinel entries *)
(* ===================================================================== *)

Local Open Scope nat_scope.

(** How often a value occurs in a column. *)
Definition occurrences (k : pyval) (vs : list pyval) : nat :=
  length (filter (fun v => v = k) vs).

(** [k1] is met in the column before [k2] is met for the first time. *)
Definition seen_before (vs : list pyval) (k1 k2 : pyval) : Prop :=
  exists l1 l2, vs = l1 ++ l2 /\ k1 ∈ l1 /\ k2 ∉ l1.

(** The ranking of [value_counts]: a higher count first, and among equal
    counts the value first met in the column. *)
Definition ranks_before (vs : list pyval) (a b : pyval * nat) : Prop :=
  b.2 < a.2 \/ (a.2 = b.2 /\ seen_before vs a.1 b.1).

(** What the loop body computes for a categorical column. *)
Definition categorical_summary (s : Series) : CategoricalStats :=
  let top := head 10 (Series_value_counts s) in
  {| value_counts := dict ((fun kv => (py_str kv.1, kv.2)) <$> top);
     unique_values := Series_nunique s;
     labels := (fun kv => py_str kv.1) <$> top;
     values := snd <$> top |}.

(** [sum(value_counts.values())] *)
Definition dict_sum (d : gmap string nat) : nat :=
  map_fold (fun _ v acc => v + acc) 0 d.





(* ===================================================================== *)
(** * Example tables *)
(* ===================================================================== *)

Definition name_column : Series :=
  {| name := "name";
     data := Object [Some "Ann"; Some "Bob"; Some "Cid"; Some "Dee"; None] |}.

Definition age_column : Series :=
  {| name := "age"; data := Float64 [Fin 20; Fin 30; Fin 30; Fin 40; NaN] |}.

Definition salary_column : Series :=
  {| name := "salary";
     data := Float64 [Fin 1000; Fin (5001 # 2); Fin 1000; Fin 4000; Fin 3200] |}.

Definition department_column : Series :=
  {| name := "department";
     data := Object [Some "A"; Some "B"; Some "A"; Some "A"; Some "C"] |}.

Definition experience_column : Series :=
  {| name := "experience"; data := Int64 [1; 2; 3; 4; 5]%Z |}.

Definition created_at_column : Series :=
  {| name := "created_at";
     data := Datetime64 [Some (mkTimestamp 2024 1 2 3 4 5 0);
                         Some (mkTimestamp 2024 1 2 3 4 5 123);
                         Some (mkTimestamp 2024 1 2 3 4 5 0);
                         None; None] |}.

(** A table shaped like the [records] table of src/models.py. *)
Definition records_table : DataFrame :=
  {| nrows := 5;
     series := [name_column; age_column; salary_column; department_column;
                experience_column; created_at_column] |}.







(** The report of a table, when there is one. *)
Definition report_of (df : DataFrame) : Stats :=
  match analyze_data (Return df) with
  | Return r => r
  | Raise _ => initial_stats df
  end.

Ltac by_decision := apply (bool_decide_unpack _); vm_compute; exact I.

(* ===================================================================== *)
(** * The record store and its endpoints (src/models.py, src/schemas.py,
      src/main.py lines 74-115, src/app.py lines 84-131) *)
(* ===================================================================== *)

Module Store.

(** A row of the [records] table: class [Record] of src/models.py.  Every
    column but the primary key may hold [NULL]. *)
Record Row : Type := mkRow {
  id : Z;
  name : option string;
  age : option Z;
  salary : option float;
  department : option string;
  experience : option Z;
  created_at : option Timestamp;
  updated_at : option Timestamp
}.


(** [schemas.RecordUpdate] as [record.dict(exclude_unset=True)] sees it:
    a field is unset ([None]), or set to a value or to null ([Some _]). *)
Record RecordUpdate : Type := mkRecordUpdate {
  set_name : option (option string);
  set_age : option (option Z);
  set_salary : option (option float);
  set_department : option (option string);
  set_experience : option (option Z)
}.

(** The table, keyed by primary key, and the sequence that feeds the key
    of the next insert. *)
Record DB : Type := mkDB {
  table : gmap Z Row;
  next_id : Z
}.

(** What an endpoint can fail with. *)
Inductive failure : Type :=
| HTTPError (status_code : Z) (detail : string)
| ZeroDivisionError
| DataError.

Inductive outcome (A : Type) : Type :=
| Ok (a : A)
| Fail (e : failure).
Arguments Ok {A} a.
Arguments Fail {A} e.

(** The body of the response of [GET /records/]. *)
Record Page : Type := mkPage {
  records : list Row;
  total : Z;
  page : Z;
  total_pages : Z
}.

(** [db.query(Record).filter(Record.id == record_id).first()] *)
Definition first_by_id (db : DB) (record_id : Z) : option Row :=
  table db !! record_id.

(** [GET /records/] (src/main.py lines 74-84).  [scan] is the order in
    which the database returns the rows of a query without [ORDER BY].
    PostgreSQL refuses a negative [OFFSET] or [LIMIT]; Python refuses to
    divide by zero. *)
Definition get_records (scan : gmap Z Row -> list Row) (page per_page : Z) (db : DB)
  : outcome Page :=
  let offset := ((page - 1) * per_page)%Z in
  if ((offset <? 0) || (per_page <? 0))%Z then Fail DataError
  else
    let records := take (Z.to_nat per_page) (drop (Z.to_nat offset) (scan (table db))) in
    let total_records := Z.of_nat (size (table db)) in
    if (per_page =? 0)%Z then Fail ZeroDivisionError
    else Ok {| records := records;
               total := total_records;
               page := page;
               total_pages := ((total_records + per_page - 1) / per_page)%Z |}.


(** The [setattr] loop of [update_record] (lines 100-101). *)
Definition setattrs (record : RecordUpdate) (db_record : Row) : Row :=
  {| id := id db_record;
     name := default (name db_record) (set_name record);
     age := default (age db_record) (set_age record);
     salary := default (salary db_record) (set_salary record);
     department := default (department db_record) (set_department record);
     experience := default (experience db_record) (set_experience record);
     created_at := created_at db_record;
     updated_at := updated_at db_record |}.

(** Python's [==] on a nullable float: [NaN] differs from itself. *)
Definition salary_eqb (x y : option float) : bool :=
  match x, y with
  | None, None => true
  | Some a, Some b => feqb a b
  | _, _ => false
  end.

(** Whether [setattr] changed an attribute: an unset field is not
    touched; a set one counts when the new value differs from the stored
    one. *)
Definition changed {A : Type} (eqb : option A -> option A -> bool)
    (new : option (option A)) (old : option A) : bool :=
  match new with
  | None => false
  | Some v => negb (eqb v old)
  end.

(** SQLAlchemy emits an [UPDATE] at commit only for a net change of some
    attribute that was set. *)
Definition net_change (record : RecordUpdate) (old : Row) : bool :=
  changed (fun x y => bool_decide (x = y)) (set_name record) (name old)
  || changed (fun x y => bool_decide (x = y)) (set_age record) (age old)
  || changed salary_eqb (set_salary record) (salary old)
  || changed (fun x y => bool_decide (x = y)) (set_department record) (department old)
  || changed (fun x y => bool_decide (x = y)) (set_experience record) (experience old).

(** [PUT /records/{record_id}] (lines 94-105); [now] is what
    [datetime.utcnow] returns when [onupdate] fires. *)
Definition update_record (now : Timestamp) (record_id : Z) (record : RecordUpdate)
    (db : DB) : outcome (Row * DB) :=
  match first_by_id db record_id with
  | None => Fail (HTTPError 404 "Record not found")
  | Some db_record =>
      let modified := setattrs record db_record in
      let stored :=
        if net_change record db_record
        then {| id := id modified; name := name modified; age := age modified;
                salary := salary modified; department := department modified;
                experience := experience modified;
                created_at := created_at modified; updated_at := Some now |}
        else db_record in
      Ok (stored, {| table := <[record_id := stored]> (table db);
                     next_id := next_id db |})
  end.

(** [DELETE /records/{record_id}] (lines 107-115). *)
Definition delete_record (record_id : Z) (db : DB) : outcome (string * DB) :=
  match first_by_id db record_id with
  | None => Fail (HTTPError 404 "Record not found")
  | Some db_record =>
      Ok ("Record deleted successfully",
          {| table := delete record_id (table db); next_id := next_id db |})
  end.



(** The rows of a table: every row is stored under its own key, below the
    sequence. *)
Definition well_keyed (db : DB) : Prop :=
  forall k r, table db !! k = Some r -> id r = k /\ (k < next_id db)%Z.



End Store.

(** A table of three rows; the row of key 3 was deleted, so the sequence
    stands at 5. *)
Definition example_row (k : Z) (who : string) (years : Z) : Store.Row :=
  {| Store.id := k;
     Store.name := Some who;
     Store.age := Some (20 + years)%Z;
     Store.salary := Some (Fin 1000);
     Store.department := Some "A";
     Store.experience := Some years;
     Store.created_at := Some (mkTimestamp 2024 1 2 3 4 5 0);
     Store.updated_at := Some (mkTimestamp 2024 1 2 3 4 5 0) |}.

Definition example_db : Store.DB :=
  {| Store.table := <[1%Z := example_row 1 "Ann" 1]>
                      (<[2%Z := example_row 2 "Bob" 2]>
                         (<[4%Z := example_row 4 "Dee" 4]> ∅));
     Store.next_id := 5 |}.

(** A scan in the order of the keys. *)
Definition example_scan (t : gmap Z Store.Row) : list Store.Row := (map_to_list t).*2.

Definition example_update : Store.RecordUpdate :=
  {| Store.set_name := Some (Some "Bea");
     Store.set_age := None;
     Store.set_salary := Some (Some (Fin 1200));
     Store.set_department := None;
     Store.set_experience := Some None |}.


Definition example_time : Timestamp := mkTimestamp 2024 6 7 8 9 10 11.

(* ===================================================================== *)
(** * Outcomes: basic facts *)
(* ===================================================================== *)

Lemma bind_Return {A B : Type} (r : result A) (k : A -> result B) (b : B) :
  r ≫= k = Return b -> exists a, r = Return a /\ k a = Return b.
Proof. destruct r as [a|e]; simpl; [eauto | discriminate]. Qed.

Lemma mapM_Return {A B : Type} (f : A -> result B) (g : A -> B) (l : list A) :
  (forall x, x ∈ l -> f x = Return (g x)) -> mapM f l = Return (g <$> l).
Proof.
  induction l as [|x l IH]; intros Hf; [reflexivity|].
  cbn. rewrite (Hf x) by left. cbn.
  rewrite IH; [reflexivity|]. intros y Hy. apply Hf. by right.
Qed.

Lemma for_each_Return {A S : Type} (body : S -> A -> result S) (step : S -> A -> S)
    (l : list A) (st : S) :
  (forall st' x, x ∈ l -> body st' x = Return (step st' x)) ->
  for_each body l st = Return (foldl step st l).
Proof.
  revert st. induction l as [|x l IH]; intros st Hb; [reflexivity|].
  cbn. rewrite (Hb st x) by left. cbn. apply IH.
  intros st' y Hy. apply Hb. by right.
Qed.

Lemma for_each_inv {A S : Type} (body : S -> A -> result S) (l : list A) (st st' : S) :
  for_each body l st = Return st' ->
  forall x, x ∈ l -> exists st1 st2, body st1 x = Return st2.
Proof.
  revert st. induction l as [|y l IH]; intros st Hrun x Hx.
  - by apply elem_of_nil in Hx.
  - cbn in Hrun. apply bind_Return in Hrun as (st1 & Hb & Hrest).
    apply elem_of_cons in Hx as [->|Hx]; [eauto | eapply IH; eauto].
Qed.

(* ===================================================================== *)
(** * Column lookup *)
(* ===================================================================== *)

Lemma getitem_elem_of (df : DataFrame) (col : string) (s : Series) :
  getitem df col = Return s -> s ∈ series df /\ name s = col.
Proof.
  unfold getitem. destruct (list_find _ _) as [[i s']|] eqn:Hf; [|discriminate].
  intros [= <-]. apply list_find_Some in Hf as (Hi & Hn & _).
  split; [by eapply list_elem_of_lookup_2 | done].
Qed.

Lemma getitem_is_Return (df : DataFrame) (col : string) :
  col ∈ df_columns df -> exists s, getitem df col = Return s.
Proof.
  unfold df_columns, getitem. intros (s & -> & Hs)%list_elem_of_fmap.
  destruct (list_find _ _) as [[i s']|] eqn:Hf; [eauto|].
  apply list_find_None in Hf. rewrite Forall_forall in Hf.
  by destruct (Hf s Hs).
Qed.

Lemma NoDup_fmap_elem_eq {A B : Type} (f : A -> B) (l : list A) (x y : A) :
  NoDup (f <$> l) -> x ∈ l -> y ∈ l -> f x = f y -> x = y.
Proof.
  induction l as [|z l IH]; intros Hnd Hx Hy Hf.
  - by apply elem_of_nil in Hx.
  - rewrite fmap_cons in Hnd. apply NoDup_cons in Hnd as [Hz Hnd].
    apply elem_of_cons in Hx as [->|Hx]; apply elem_of_cons in Hy as [->|Hy];
      [done| | |by apply IH].
    + destruct Hz. rewrite Hf. by apply list_elem_of_fmap_2.
    + destruct Hz. rewrite <- Hf. by apply list_elem_of_fmap_2.
Qed.

Lemma getitem_unique (df : DataFrame) (s : Series) :
  unique_columns df -> s ∈ series df -> getitem df (name s) = Return s.
Proof.
  intros Hnd Hs.
  destruct (getitem_is_Return df (name s)) as [s' Hs'].
  { by apply list_elem_of_fmap_2. }
  rewrite Hs'. f_equal.
  apply getitem_elem_of in Hs' as [Hin Hname].
  by apply (NoDup_fmap_elem_eq name (series df)).
Qed.

(* ===================================================================== *)
(** * The shape of the report *)
(* ===================================================================== *)

Lemma Return_bind {A B : Type} (a : A) (k : A -> result B) : Return a ≫= k = k a.
Proof. reflexivity. Qed.

Lemma guard_for_each {A S : Type} (body : S -> A -> result S) (l : list A) (st : S) :
  (if decide (0 < length l) then for_each body l st else Return st)
  = for_each body l st.
Proof. destruct l; [done|]. case_decide; [done|]. simpl in *. lia. Qed.

Lemma analyze_unfold (df : DataFrame) :
  analyze df =
  (st ← numeric_loop df (numeric_names df) (initial_stats df);
   categorical_loop df (categorical_names df) st).
Proof.
  unfold analyze. fold (numeric_names df) (categorical_names df).
  rewrite (mapM_Return _ (fun col => (col, match getitem df col with
                                           | Return s => dtype_str (series_dtype s)
                                           | Raise _ => ""
                                           end))).
  2:{ intros col Hcol. destruct (getitem_is_Return df col Hcol) as [s ->]. done. }
  rewrite Return_bind. cbv beta. fold (initial_stats df).
  rewrite guard_for_each. unfold numeric_loop, categorical_loop.
  destruct (for_each _ (numeric_names df) (initial_stats df)) as [st|e];
    [|reflexivity].
  rewrite !Return_bind, guard_for_each.
  by destruct (for_each _ (categorical_names df) st).
Qed.

Lemma numeric_loop_inv (df : DataFrame) (cols : list string) (st st' : Stats) :
  numeric_loop df cols st = Return st' ->
  basic_info st' = basic_info st /\ column_types st' = column_types st /\
  missing_values st' = missing_values st /\
  categorical_stats st' = categorical_stats st /\
  (forall col, col ∈ cols ->
     exists e, numeric_entry df col = Return e /\ numeric_stats st' !! col = Some e) /\
  (forall col, col ∉ cols -> numeric_stats st' !! col = numeric_stats st !! col).
Proof.
  revert st. induction cols as [|c cols IH]; intros st Hrun.
  - injection Hrun as <-. repeat split; try done.
    intros col Hcol. by apply elem_of_nil in Hcol.
  - cbn in Hrun. apply bind_Return in Hrun as (st1 & Hbody & Hrest).
    apply bind_Return in Hbody as (e & He & [= <-]).
    apply IH in Hrest as (Hb & Ht & Hm & Hc & Hin & Hout). clear IH.
    repeat split; try done.
    + intros col Hcol. destruct (decide (col ∈ cols)) as [Hc'|Hc']; [by apply Hin|].
      apply elem_of_cons in Hcol as [->|]; [|done].
      exists e. split; [done|]. rewrite Hout by done. cbn. apply lookup_insert_eq.
    + intros col Hcol. apply not_elem_of_cons in Hcol as [Hne Hcol].
      rewrite Hout by done. cbn. by apply lookup_insert_ne.
Qed.


Lemma categorical_loop_inv (df : DataFrame) (cols : list string) (st st' : Stats) :
  categorical_loop df cols st = Return st' ->
  basic_info st' = basic_info st /\ column_types st' = column_types st /\
  missing_values st' = missing_values st /\
  numeric_stats st' = numeric_stats st /\
  (forall col, col ∈ cols ->
     exists e, categorical_entry df col = Return e /\
               categorical_stats st' !! col = Some e) /\
  (forall col, col ∉ cols -> categorical_stats st' !! col = categorical_stats st !! col).
Proof.
  revert st. induction cols as [|c cols IH]; intros st Hrun.
  - injection Hrun as <-. repeat split; try done.
    intros col Hcol. by apply elem_of_nil in Hcol.
  - cbn in Hrun. apply bind_Return in Hrun as (st1 & Hbody & Hrest).
    apply bind_Return in Hbody as (e & He & [= <-]).
    apply IH in Hrest as (Hb & Ht & Hm & Hc & Hin & Hout). clear IH.
    repeat split; try done.
    + intros col Hcol. destruct (decide (col ∈ cols)) as [Hc'|Hc']; [by apply Hin|].
      apply elem_of_cons in Hcol as [->|]; [|done].
      exists e. split; [done|]. rewrite Hout by done. cbn. apply lookup_insert_eq.
    + intros col Hcol. apply not_elem_of_cons in Hcol as [Hne Hcol].
      rewrite Hout by done. cbn. by apply lookup_insert_ne.
Qed.


Lemma elem_of_numeric_names (df : DataFrame) (col : string) :
  col ∈ numeric_names df <-> exists s, s ∈ series df /\ name s = col /\ is_numeric s.
Proof.
  unfold numeric_names, df_columns, select_dtypes_include. cbn.
  rewrite list_elem_of_fmap. split.
  - intros (s & -> & Hs). apply list_elem_of_filter in Hs as [Hn Hs]. by exists s.
  - intros (s & Hs & <- & Hn). exists s. split; [done|]. by apply list_elem_of_filter.
Qed.

Lemma elem_of_categorical_names (df : DataFrame) (col : string) :
  col ∈ categorical_names df <-> exists s, s ∈ series df /\ name s = col /\ ~ is_numeric s.
Proof.
  unfold categorical_names, df_columns, select_dtypes_exclude. cbn.
  rewrite list_elem_of_fmap. split.
  - intros (s & -> & Hs). apply list_elem_of_filter in Hs as [Hn Hs]. by exists s.
  - intros (s & Hs & <- & Hn). exists s. split; [done|]. by apply list_elem_of_filter.
Qed.

Lemma analyze_inv (df : DataFrame) (r : Stats) :
  analyze df = Return r ->
  basic_info r = basic_info (initial_stats df) /\
  column_types r = column_types (initial_stats df) /\
  missing_values r = missing_values (initial_stats df) /\
  (forall col, col ∈ numeric_names df ->
     exists e, numeric_entry df col = Return e /\ numeric_stats r !! col = Some e) /\
  (forall col, col ∉ numeric_names df -> numeric_stats r !! col = None) /\
  (forall col, col ∈ categorical_names df ->
     exists e, categorical_entry df col = Return e /\
               categorical_stats r !! col = Some e) /\
  (forall col, col ∉ categorical_names df -> categorical_stats r !! col = None).
Proof.
  rewrite analyze_unfold. intros (st & Hnum & Hcat)%bind_Return.
  apply numeric_loop_inv in Hnum as (Hb & Ht & Hm & Hc & Hin & Hout).
  apply categorical_loop_inv in Hcat as (Hb' & Ht' & Hm' & Hc' & Hin' & Hout').
  rewrite Hb', Ht', Hm', Hc', Hb, Ht, Hm.
  split; [done|]. split; [done|]. split; [done|]. split; [done|].
  split; [|split; [done|]].
  - intros col Hcol. by rewrite Hout.
  - intros col Hcol. by rewrite Hout', Hc.
Qed.


(* ===================================================================== *)
(** * Dictionaries built by comprehension *)
(* ===================================================================== *)

Lemma dict_acc_notin {V : Type} (items : list (string * V)) (d : gmap string V) (k : string) :
  k ∉ items.*1 ->
  foldl (fun d kv => <[kv.1 := kv.2]> d) d items !! k = d !! k.
Proof.
  revert d. induction items as [|[k0 v0] items IH]; intros d Hk; [done|].
  cbn in *. apply not_elem_of_cons in Hk as [Hne Hk].
  rewrite IH by done. by apply lookup_insert_ne.
Qed.

Lemma dict_acc_in {V : Type} (items : list (string * V)) (d : gmap string V)
    (k : string) (v : V) :
  NoDup items.*1 -> (k, v) ∈ items ->
  foldl (fun d kv => <[kv.1 := kv.2]> d) d items !! k = Some v.
Proof.
  revert d. induction items as [|[k0 v0] items IH]; intros d Hnd Hin.
  - by apply elem_of_nil in Hin.
  - cbn in *. apply NoDup_cons in Hnd as [Hk0 Hnd].
    apply elem_of_cons in Hin as [[= -> ->]|Hin]; [|by apply IH].
    rewrite dict_acc_notin by done. apply lookup_insert_eq.
Qed.

Lemma dict_lookup_Some {V : Type} (items : list (string * V)) (k : string) (v : V) :
  NoDup items.*1 -> (k, v) ∈ items -> dict items !! k = Some v.
Proof. apply dict_acc_in. Qed.

Lemma dict_lookup_None {V : Type} (items : list (string * V)) (k : string) :
  k ∉ items.*1 -> dict items !! k = None.
Proof. intros Hk. unfold dict. by rewrite dict_acc_notin. Qed.

Lemma dict_acc_is_Some {V : Type} (items : list (string * V)) (d : gmap string V)
    (k : string) :
  k ∈ items.*1 -> is_Some (foldl (fun d kv => <[kv.1 := kv.2]> d) d items !! k).
Proof.
  revert d. induction items as [|[k0 v0] items IH]; intros d Hin.
  - by apply elem_of_nil in Hin.
  - cbn in *. destruct (decide (k ∈ items.*1)) as [Hk|Hk]; [by apply IH|].
    apply elem_of_cons in Hin as [->|]; [|done].
    rewrite dict_acc_notin by done. rewrite lookup_insert_eq. by eexists.
Qed.

(* ===================================================================== *)
(** * Nulls *)
(* ===================================================================== *)

Lemma length_filter_isnan (xs : list float) :
  length (filter (fun x => isnan x = true) xs) + length (dropna xs) = length xs.
Proof.
  unfold dropna. induction xs as [|x xs IH]; [done|].
  rewrite !filter_cons. destruct x; cbn; repeat case_decide; cbn; try done; lia.
Qed.

Lemma length_filter_None {A : Type} (xs : list (option A)) :
  length (filter (fun o => o = None) xs) + length (omap id xs) = length xs.
Proof.
  induction xs as [|[x|] xs IH]; [done| |].
  - rewrite filter_cons_False by done. cbn. lia.
  - rewrite filter_cons_True by done. cbn. lia.
Qed.

Lemma isnull_sum_count (s : Series) : isnull_sum s + count s = series_len s.
Proof.
  unfold isnull_sum, count, series_len. destruct (data s) as [xs|xs|xs|xs].
  - done.
  - apply length_filter_isnan.
  - apply length_filter_None.
  - apply length_filter_None.
Qed.

Lemma missing_values_lookup (df : DataFrame) (s : Series) :
  unique_columns df -> s ∈ series df ->
  missing_values (initial_stats df) !! name s = Some (isnull_sum s).
Proof.
  intros Hnd Hs. cbn. apply dict_lookup_Some.
  - by rewrite <- list_fmap_compose.
  - by apply (list_elem_of_fmap_2 (fun s => (name s, isnull_sum s))).
Qed.

(* ===================================================================== *)
(** * C5: missing values and non-null values add up to the row count *)
(* ===================================================================== *)

(** C5.  For every rectangular table with distinct column names that
    [analyze_data] reports on, and every column of it, numeric or
    categorical, the [missing_values] entry of the column plus the number
    of its non-null cells is the report's [total_rows]. *)
Theorem missing_values_complement (df : DataFrame) (r : Stats) (s : Series) :
  rectangular df -> unique_columns df ->
  analyze_data (Return df) = Return r ->
  s ∈ series df ->
  exists missing,
    missing_values r !! name s = Some missing /\
    missing = isnull_sum s /\
    missing + count s = total_rows (basic_info r).
Proof.
  intros Hrect Hnd Hrun Hs. cbn in Hrun.
  apply analyze_inv in Hrun as (Hb & _ & Hm & _).
  exists (isnull_sum s). rewrite Hm, Hb. split; [by apply missing_values_lookup|].
  split; [done|]. cbn. rewrite isnull_sum_count.
  unfold rectangular in Hrect. rewrite Forall_forall in Hrect. by apply Hrect.
Qed.

(* ===================================================================== *)
(** * C6: classification by storage type *)
(* ===================================================================== *)

Lemma is_numeric_iff (s : Series) :
  is_numeric s <-> stored_as_integer_or_floating s.
Proof.
  unfold is_numeric, stored_as_integer_or_floating.
  destruct (series_dtype s); vm_compute; intuition discriminate.
Qed.

Lemma is_numeric_dtype (s : Series) :
  is_numeric s <-> series_dtype s = int64 \/ series_dtype s = float64.
Proof.
  unfold is_numeric. destruct (series_dtype s); vm_compute; intuition discriminate.
Qed.

(** C6.  In every report of [analyze_data], a column is in the numeric
    class iff its storage type is integer or floating-point and in the
    categorical class otherwise; the class is a function of the storage
    type alone, so an object column is categorical whatever its strings
    look like; the two classes split the columns, and the two counts of
    [basic_info] add up to [total_columns]. *)
Theorem classification_by_storage_type (df : DataFrame) (r : Stats) :
  analyze_data (Return df) = Return r ->
  (forall s, s ∈ series df ->
     (s ∈ series (select_dtypes_include np_number df)
        <-> stored_as_integer_or_floating s) /\
     (s ∈ series (select_dtypes_exclude np_number df)
        <-> ~ stored_as_integer_or_floating s) /\
     (stored_as_integer_or_floating s
        <-> series_dtype s = int64 \/ series_dtype s = float64)) /\
  (forall s s', series_dtype s = series_dtype s' ->
     (stored_as_integer_or_floating s <-> stored_as_integer_or_floating s')) /\
  (forall col xs, ~ stored_as_integer_or_floating {| name := col; data := Object xs |}) /\
  series (select_dtypes_include np_number df)
    ++ series (select_dtypes_exclude np_number df) ≡ₚ series df /\
  numeric_columns (basic_info r) = length (series (select_dtypes_include np_number df)) /\
  categorical_columns (basic_info r)
    = length (series (select_dtypes_exclude np_number df)) /\
  numeric_columns (basic_info r) + categorical_columns (basic_info r)
    = total_columns (basic_info r).
Proof.
  intros Hrun. cbn in Hrun. apply analyze_inv in Hrun as (Hb & _).
  assert (Hsplit : series (select_dtypes_include np_number df)
                     ++ series (select_dtypes_exclude np_number df) ≡ₚ series df)
    by apply filter_app_complement.
  split; [|split; [|split; [|split; [done|]]]].
  - intros s Hs. split; [|split].
    + rewrite <- is_numeric_iff. cbn. rewrite list_elem_of_filter. unfold is_numeric.
      tauto.
    + rewrite <- is_numeric_iff. cbn. rewrite list_elem_of_filter. unfold is_numeric.
      tauto.
    + by rewrite <- is_numeric_iff, is_numeric_dtype.
  - intros s s' Heq. unfold stored_as_integer_or_floating. by rewrite Heq.
  - intros col xs. rewrite <- is_numeric_iff, is_numeric_dtype. cbn.
    intros [|]; discriminate.
  - rewrite Hb. cbn. unfold numeric_names, categorical_names, df_columns.
    rewrite !length_fmap. split; [done|]. split; [done|].
    rewrite <- length_app. by rewrite Hsplit.
Qed.

(* ===================================================================== *)
(** * Arrays of finite values *)
(* ===================================================================== *)

Local Open Scope Q_scope.

Lemma dropna_Fin (qs : list Q) : dropna (Fin <$> qs) = Fin <$> qs.
Proof.
  unfold dropna. induction qs as [|q qs IH]; [done|].
  rewrite fmap_cons, filter_cons_True by done. by rewrite IH.
Qed.

Lemma foldl_fmin_Fin (x : Q) (qs : list Q) :
  foldl fmin (Fin x) (Fin <$> qs) = Fin (foldl Qmin_b x qs).
Proof.
  revert x. induction qs as [|q qs IH]; intros x; [done|].
  cbn. rewrite <- IH. f_equal. unfold fmin, Qmin_b. cbn. by destruct (Qle_bool x q).
Qed.

Lemma foldl_fmax_Fin (x : Q) (qs : list Q) :
  foldl fmax (Fin x) (Fin <$> qs) = Fin (foldl Qmax_b x qs).
Proof.
  revert x. induction qs as [|q qs IH]; intros x; [done|].
  cbn. rewrite <- IH. f_equal. unfold fmax, Qmax_b. cbn. by destruct (Qle_bool x q).
Qed.

Lemma foldl_fadd_Fin (x : Q) (qs : list Q) :
  foldl fadd (Fin x) (Fin <$> qs) = Fin (foldl Qplus x qs).
Proof. revert x. induction qs as [|q qs IH]; intros x; [done|]. cbn. apply IH. Qed.

Lemma fsum_Fin (qs : list Q) : fsum (Fin <$> qs) = Fin (Qsum qs).
Proof. apply foldl_fadd_Fin. Qed.



Lemma Qle_bool_false (x y : Q) : Qle_bool x y = false <-> y < x.
Proof.
  rewrite <- not_true_iff_false, Qle_bool_iff. split; [apply Qnot_le_lt | apply Qlt_not_le].
Qed.

(** The running minimum is one of the values and below all of them. *)
Lemma foldl_Qmin_b_spec (x : Q) (qs : list Q) :
  foldl Qmin_b x qs ∈ x :: qs /\ forall y, y ∈ x :: qs -> foldl Qmin_b x qs <= y.
Proof.
  revert x. induction qs as [|q qs IH]; intros x.
  - cbn. split; [left|]. intros y ->%list_elem_of_singleton. lra.
  - cbn. destruct (IH (Qmin_b x q)) as [Hin Hle]. split.
    + apply elem_of_cons in Hin as [->|Hin]; [|by do 2 right].
      unfold Qmin_b. destruct (Qle_bool x q); [left | right; left].
    + intros y Hy.
      assert (Hm : foldl Qmin_b (Qmin_b x q) qs <= Qmin_b x q) by (apply Hle; left).
      assert (Hxq : Qmin_b x q <= x /\ Qmin_b x q <= q).
      { unfold Qmin_b. destruct (Qle_bool x q) eqn:E.
        - apply Qle_bool_iff in E. lra.
        - apply Qle_bool_false in E. lra. }
      apply elem_of_cons in Hy as [->|Hy]; [lra|].
      apply elem_of_cons in Hy as [->|Hy]; [lra|].
      apply Hle. by right.
Qed.

Lemma foldl_Qmax_b_spec (x : Q) (qs : list Q) :
  foldl Qmax_b x qs ∈ x :: qs /\ forall y, y ∈ x :: qs -> y <= foldl Qmax_b x qs.
Proof.
  revert x. induction qs as [|q qs IH]; intros x.
  - cbn. split; [left|]. intros y ->%list_elem_of_singleton. lra.
  - cbn. destruct (IH (Qmax_b x q)) as [Hin Hle]. split.
    + apply elem_of_cons in Hin as [->|Hin]; [|by do 2 right].
      unfold Qmax_b. destruct (Qle_bool x q); [right; left | left].
    + intros y Hy.
      assert (Hm : Qmax_b x q <= foldl Qmax_b (Qmax_b x q) qs) by (apply Hle; left).
      assert (Hxq : x <= Qmax_b x q /\ q <= Qmax_b x q).
      { unfold Qmax_b. destruct (Qle_bool x q) eqn:E.
        - apply Qle_bool_iff in E. lra.
        - apply Qle_bool_false in E. lra. }
      apply elem_of_cons in Hy as [->|Hy]; [lra|].
      apply elem_of_cons in Hy as [->|Hy]; [lra|].
      apply Hle. by right.
Qed.

Lemma get_outer_edges_Fin (qs : list Q) :
  get_outer_edges (Fin <$> qs)
  = Return (Fin (outer_edges qs).1, Fin (outer_edges qs).2).
Proof.
  destruct qs as [|x qs]; [reflexivity|].
  unfold get_outer_edges, outer_edges. rewrite fmap_cons. unfold amin, amax.
  rewrite !Return_bind, foldl_fmin_Fin, foldl_fmax_Fin. cbn.
  by destruct (Qeq_bool _ _).
Qed.

Lemma outer_edges_spec (qs : list Q) :
  (outer_edges qs).1 < (outer_edges qs).2 /\
  forall x, x ∈ qs -> (outer_edges qs).1 <= x <= (outer_edges qs).2.
Proof.
  destruct qs as [|x qs].
  - cbn. split; [lra|]. intros y Hy. by apply elem_of_nil in Hy.
  - unfold outer_edges.
    destruct (foldl_Qmin_b_spec x qs) as [_ Hmin].
    destruct (foldl_Qmax_b_spec x qs) as [_ Hmax].
    pose proof (Hmin x ltac:(left)). pose proof (Hmax x ltac:(left)).
    destruct (Qeq_bool _ _) eqn:E; cbn.
    + split; [lra|]. intros y Hy. specialize (Hmin y Hy). specialize (Hmax y Hy). lra.
    + apply Qeq_bool_neq in E. split.
      * destruct (Qlt_le_dec (foldl Qmin_b x qs) (foldl Qmax_b x qs)); [done|].
        destruct E. lra.
      * intros y Hy. split; [by apply Hmin | by apply Hmax].
Qed.

(* ===================================================================== *)
(** * Bins of a finite range *)
(* ===================================================================== *)

Section Bins.
Variables first_edge last_edge : Q.
Hypothesis Hrange : first_edge < last_edge.

Local Abbreviation bin_width := (bin_width first_edge last_edge).
Local Abbreviation edge := (edge first_edge last_edge).
Local Abbreviation scaled := (scaled first_edge last_edge).
Local Abbreviation bin_of := (bin_of first_edge last_edge).

Lemma linspace_Fin :
  linspace (Fin first_edge) (Fin last_edge) 11 = (fun i => Fin (edge i)) <$> seq 0 11.
Proof using Type. reflexivity. Qed.

Lemma lookup_linspace (i : nat) :
  (i <= 10)%nat ->
  linspace (Fin first_edge) (Fin last_edge) 11 !! i = Some (Fin (edge i)).
Proof using Type.
  intros Hi. rewrite linspace_Fin, list_lookup_fmap, lookup_seq_lt by lia. done.
Qed.

Lemma item_linspace (i : Z) :
  (0 <= i <= 10)%Z ->
  item (linspace (Fin first_edge) (Fin last_edge) 11) i
  = Return (Fin (edge (Z.to_nat i))).
Proof using Type.
  intros Hi. unfold item.
  assert (H : (0 <=? i)%Z = true) by (apply Z.leb_le; lia).
  rewrite !H. by rewrite lookup_linspace by lia.
Qed.

Lemma edge_10 : edge 10 == inject_Z 10 * bin_width + first_edge.
Proof using Hrange.
  unfold edge, bin_width. rewrite decide_True by done.
  change (inject_Z (Z.of_nat 10)) with (10 # 1). change (inject_Z 10) with (10 # 1).
  field.
Qed.

Lemma edge_eq (i : nat) : edge i == inject_Z (Z.of_nat i) * bin_width + first_edge.
Proof using Hrange.
  unfold edge. case_decide as Hi; [|reflexivity]. subst i. apply edge_10.
Qed.

Lemma bin_width_pos : 0 < bin_width.
Proof using Hrange.
  unfold bin_width. apply Qlt_shift_div_l; [reflexivity|]. lra.
Qed.

(** The scaled offset, in units of the bin width. *)
Lemma scaled_spec (x : Q) : scaled x * bin_width == x - first_edge.
Proof using Hrange.
  unfold scaled, bin_width. change (inject_Z (Z.of_nat 10)) with (10 # 1).
  field. lra.
Qed.

Lemma scaled_ge (x : Q) (b : Z) :
  inject_Z b <= scaled x <-> inject_Z b * bin_width + first_edge <= x.
Proof using Hrange.
  pose proof bin_width_pos as Hw. pose proof (scaled_spec x) as Hs. split; intros H.
  - assert (inject_Z b * bin_width <= scaled x * bin_width)
      by (apply Qmult_le_compat_r; lra). lra.
  - apply (Qmult_le_r _ _ bin_width); lra.
Qed.

Lemma scaled_lt (x : Q) (b : Z) :
  scaled x < inject_Z b <-> x < inject_Z b * bin_width + first_edge.
Proof using Hrange.
  pose proof (scaled_ge x b) as H. split; intros Hlt.
  - apply Qnot_le_lt. intros Hle. apply H in Hle. lra.
  - apply Qnot_le_lt. intros Hle. apply H in Hle. lra.
Qed.

Lemma Qfloor_bounds (q : Q) (k : Z) :
  Qfloor q = k <-> inject_Z k <= q < inject_Z (k + 1).
Proof using Type.
  split.
  - intros <-. split; [apply Qfloor_le | apply Qlt_floor].
  - intros [Hlo Hhi].
    pose proof (Qfloor_le q) as H1. pose proof (Qlt_floor q) as H2.
    assert (Qfloor q < k + 1)%Z.
    { rewrite Zlt_Qlt. lra. }
    assert (k < Qfloor q + 1)%Z.
    { rewrite Zlt_Qlt. lra. }
    lia.
Qed.

Lemma scaled_in_range (x : Q) :
  first_edge <= x <= last_edge -> 0 <= scaled x <= inject_Z 10.
Proof using Hrange.
  intros [Hlo Hhi]. split.
  - apply (scaled_ge x 0). change (inject_Z 0) with 0. lra.
  - apply Qnot_lt_le. intros Hlt.
    pose proof bin_width_pos as Hw. pose proof (scaled_spec x) as Hs.
    pose proof edge_10 as He. unfold edge in He. rewrite decide_True in He by done.
    assert (inject_Z 10 * bin_width < scaled x * bin_width)
      by (apply Qmult_lt_compat_r; lra).
    lra.
Qed.

Lemma Qfloor_scaled_range (x : Q) :
  first_edge <= x <= last_edge -> (0 <= Qfloor (scaled x) <= 10)%Z.
Proof using Hrange.
  intros Hx. apply scaled_in_range in Hx as [Hlo Hhi].
  pose proof (Qfloor_le (scaled x)) as H1. pose proof (Qlt_floor (scaled x)) as H2.
  split.
  - assert (0 < Qfloor (scaled x) + 1)%Z; [|lia]. rewrite Zlt_Qlt.
    change (inject_Z 0) with 0. lra.
  - rewrite Zle_Qle. lra.
Qed.

Lemma bin_of_range (x : Q) :
  first_edge <= x <= last_edge -> (0 <= bin_of x <= 9)%Z.
Proof using Hrange. intros Hx%Qfloor_scaled_range. unfold bin_of. lia. Qed.
Lemma Qsign_pos (q : Q) : 0 < q -> Qsign q = Gt.
Proof using Type. intros H. unfold Qsign. by apply Qgt_alt. Qed.

Lemma f_index_Fin (x : Q) :
  fmul (fdiv (fsub (Fin x) (Fin first_edge)) (fsub (Fin last_edge) (Fin first_edge)))
       (of_nat 10)
  = Fin (scaled x).
Proof using Hrange.
  unfold fsub, fopp, fadd, fdiv. rewrite Qsign_pos by lra. reflexivity.
Qed.

(** On the range, the two corrections of [bin_index] never fire: the
    truncated offset, with the right edge folded in, is the bin. *)
Lemma bin_index_Fin (x : Q) :
  first_edge <= x <= last_edge ->
  bin_index (Fin first_edge) (Fin last_edge)
            (linspace (Fin first_edge) (Fin last_edge) 11) 10 (Fin x)
  = Return (bin_of x).
Proof using Hrange.
  intros Hx. unfold bin_index. rewrite f_index_Fin.
  pose proof (scaled_in_range x Hx) as [Hs0 Hs10].
  pose proof (Qfloor_scaled_range x Hx) as Hfl.
  pose proof (Qfloor_le (scaled x)) as Hle.
  pose proof (Qlt_floor (scaled x)) as Hlt.
  unfold astype_intp. rewrite (proj2 (Qle_bool_iff 0 (scaled x)) Hs0).
  unfold bin_of. set (i0 := Qfloor (scaled x)) in *.
  set (i1 := if decide (i0 = Z.of_nat 10) then (i0 - 1)%Z else i0).
  assert (Hi1 : i1 = Z.min i0 9) by (subst i1; case_decide; lia).
  assert (Hi1r : (0 <= i1 <= 9)%Z) by lia.
  rewrite item_linspace by lia. rewrite Return_bind.
  assert (Hlower : edge (Z.to_nat i1) <= x).
  { rewrite edge_eq, Z2Nat.id by lia. apply scaled_ge.
    assert (inject_Z i1 <= inject_Z i0) by (rewrite <- Zle_Qle; lia). lra. }
  assert (Hflt : flt (Fin x) (Fin (edge (Z.to_nat i1))) = false).
  { unfold flt. by rewrite (proj2 (Qle_bool_iff _ _) Hlower). }
  rewrite Hflt.
  rewrite item_linspace by lia. rewrite Return_bind.
  destruct (decide (i1 = 9%Z)) as [H9|H9].
  - rewrite (bool_decide_eq_true_2 (i1 = (Z.of_nat 10 - 1)%Z)) by (rewrite H9; done).
    rewrite andb_false_r. by rewrite Hi1.
  - assert (Hi0 : i1 = i0) by lia.
    assert (Hupper : x < edge (Z.to_nat (i1 + 1))).
    { rewrite edge_eq, Z2Nat.id by lia. apply scaled_lt. rewrite Hi0. done. }
    unfold fle. rewrite (proj2 (Qle_bool_false _ _) Hupper). cbn [andb].
    by rewrite Hi1.
Qed.

(** A value is in bin [b] exactly when it is at or above the left edge
    of [b] and below its right edge; the last bin takes its right edge
    too. *)
Lemma bin_of_spec (x : Q) (b : nat) :
  first_edge <= x <= last_edge -> (b < 10)%nat ->
  bin_of x = Z.of_nat b <->
  edge b <= x /\ (x < edge (S b) \/ (b = 9%nat /\ x <= edge (S b))).
Proof using Hrange.
  intros Hx Hb. pose proof (Qfloor_scaled_range x Hx) as Hfl.
  pose proof (Qfloor_le (scaled x)) as Hle.
  pose proof (Qlt_floor (scaled x)) as Hlt.
  rewrite !edge_eq. rewrite <- scaled_ge, <- scaled_lt.
  unfold bin_of. set (i0 := Qfloor (scaled x)) in *.
  assert (HS : inject_Z (Z.of_nat (S b)) = inject_Z (Z.of_nat b + 1))
    by (f_equal; lia).
  rewrite HS. clear HS.
  split.
  - intros Hmin. split.
    + assert (inject_Z (Z.of_nat b) <= inject_Z i0) by (rewrite <- Zle_Qle; lia). lra.
    + destruct (decide (b = 9%nat)) as [->|Hb9].
      * right. split; [done|].
        pose proof edge_10 as He. unfold edge in He.
        rewrite decide_True in He by done.
        change (inject_Z (Z.of_nat 9 + 1)) with (inject_Z 10). lra.
      * left. assert (i0 = Z.of_nat b) as <- by lia. done.
  - intros [Hlo Hhi].
    assert (Z.of_nat b < i0 + 1)%Z by (rewrite Zlt_Qlt; lra).
    destruct Hhi as [Hhi|[-> _]]; [|lia].
    assert (i0 < Z.of_nat b + 1)%Z by (rewrite Zlt_Qlt; lra). lia.
Qed.
End Bins.

(* ===================================================================== *)
(** * The histogram of finite data *)
(* ===================================================================== *)

Local Open Scope nat_scope.

Lemma length_filter_fmap {A B : Type} (f : A -> B) (P : B -> Prop)
    `{!forall y, Decision (P y)} (l : list A) :
  length (filter P (f <$> l)) = length (filter (fun x => P (f x)) l).
Proof.
  induction l as [|x l IH]; [done|].
  rewrite fmap_cons, !filter_cons. case_decide; cbn; by rewrite IH.
Qed.

Lemma filter_all {A : Type} (P : A -> Prop) `{!forall y, Decision (P y)} (l : list A) :
  Forall P l -> filter P l = l.
Proof.
  induction 1 as [|x l Hx Hl IH]; [done|]. by rewrite filter_cons_True, IH.
Qed.

Lemma foldr_Zmax_bounds (idx : list Z) (hi : Z) :
  (-1 <= hi)%Z -> Forall (fun i => (i <= hi)%Z) idx ->
  (-1 <= foldr Z.max (-1)%Z idx <= hi)%Z.
Proof. intros Hhi. induction 1; cbn; lia. Qed.

Lemma bincount_in_range (idx : list Z) :
  Forall (fun i => (0 <= i <= 9)%Z) idx ->
  bincount idx 10
  = Return ((fun b => length (filter (fun i => i = Z.of_nat b) idx)) <$> seq 0 10).
Proof.
  intros Hidx. unfold bincount.
  assert (Hpos : forallb (fun i => (0 <=? i)%Z) idx = true).
  { apply forallb_forall. intros i Hi%list_elem_of_In.
    rewrite Forall_forall in Hidx. apply Z.leb_le. by apply Hidx. }
  rewrite Hpos.
  assert (Hmax : (-1 <= foldr Z.max (-1)%Z idx <= 9)%Z).
  { apply foldr_Zmax_bounds; [lia|]. eapply Forall_impl; [done|]. cbn. lia. }
  replace (Nat.max 10 (S (Z.to_nat (foldr Z.max (-1)%Z idx)))) with 10 by lia.
  done.
Qed.

Lemma histogram_Fin (qs : list Q) :
  histogram (Fin <$> qs) 10 = Return (hist_counts qs, hist_edges qs).
Proof.
  unfold histogram, hist_counts, hist_edges.
  rewrite get_outer_edges_Fin, Return_bind.
  destruct (outer_edges_spec qs) as [Hlt Hin].
  destruct (outer_edges qs) as [f l]. cbn [fst snd] in *.
  rewrite filter_all.
  2:{ apply Forall_fmap, Forall_forall. intros x Hx. cbn.
      destruct (Hin x Hx) as [H1 H2].
      by rewrite (proj2 (Qle_bool_iff _ _) H1), (proj2 (Qle_bool_iff _ _) H2). }
  rewrite (mapM_Return _ (fun y => match y with Fin x => bin_of f l x | _ => 0%Z end)).
  2:{ intros y (x & -> & Hx)%list_elem_of_fmap. apply bin_index_Fin; auto. }
  rewrite Return_bind, <- list_fmap_compose.
  rewrite bincount_in_range.
  2:{ apply Forall_fmap, Forall_forall. intros x Hx. cbn. apply bin_of_range; auto. }
  rewrite Return_bind. rewrite decide_True by by rewrite length_fmap, length_seq.
  do 2 f_equal. apply list_fmap_ext. intros _ b _.
  by rewrite length_filter_fmap.
Qed.

Lemma length_hist_counts (qs : list Q) : length (hist_counts qs) = 10.
Proof. unfold hist_counts. by rewrite length_fmap, length_seq. Qed.


(** Each value falls in exactly one bin: the counts add up. *)
Lemma sum_list_indicator (n i : nat) :
  i < n -> sum_list ((fun b => if decide (i = b) then 1 else 0) <$> seq 0 n) = 1.
Proof.
  intros Hi. induction n as [|n IH]; [lia|].
  rewrite seq_S, fmap_app, sum_list_with_app. cbn.
  destruct (decide (i = n)) as [->|Hne].
  - rewrite (sum_list_fmap_same 0).
    + rewrite length_seq. lia.
    + rewrite Forall_forall. intros b Hb%elem_of_seq. case_decide; lia.
  - rewrite IH by lia. lia.
Qed.

Lemma sum_list_fmap_plus {A : Type} (g h : A -> nat) (l : list A) :
  sum_list ((fun b => g b + h b) <$> l) = sum_list (g <$> l) + sum_list (h <$> l).
Proof. induction l as [|x l IH]; cbn; [done|]. rewrite IH. lia. Qed.

Lemma sum_list_bins {A : Type} (bin : A -> Z) (l : list A) (n : nat) :
  Forall (fun x => (0 <= bin x < Z.of_nat n)%Z) l ->
  sum_list ((fun b => length (filter (fun x => bin x = Z.of_nat b) l)) <$> seq 0 n)
  = length l.
Proof.
  induction 1 as [|x l Hx Hl IH].
  - cbn. rewrite (sum_list_fmap_same 0).
    + lia.
    + by rewrite Forall_forall.
  - rewrite (list_fmap_ext _ (fun b => (if decide (Z.to_nat (bin x) = b) then 1 else 0)
               + length (filter (fun x => bin x = Z.of_nat b) l)) (seq 0 n)).
    + rewrite sum_list_fmap_plus, IH, sum_list_indicator by lia. done.
    + intros _ b _. rewrite filter_cons.
      destruct (decide (bin x = Z.of_nat b)), (decide (Z.to_nat (bin x) = b));
        cbn; lia.
Qed.

Lemma sum_hist_counts (qs : list Q) : sum_list (hist_counts qs) = length qs.
Proof.
  unfold hist_counts. apply (sum_list_bins _ _ 10).
  destruct (outer_edges_spec qs) as [Hlt Hin].
  rewrite Forall_forall. intros x Hx.
  pose proof (bin_of_range _ _ Hlt x (Hin x Hx)). lia.
Qed.

(* ===================================================================== *)
(** * Infinite cells *)
(* ===================================================================== *)

Lemma finite_part_Fin (qs : list Q) : finite_part (Fin <$> qs) = qs.
Proof. induction qs as [|q qs IH]; [done|]. cbn. by f_equal. Qed.

Lemma Forall_isfinite (a : list float) :
  Forall (fun x => isfinite x = true) a -> a = Fin <$> finite_part a.
Proof.
  induction 1 as [|x a Hx Ha IH]; [done|].
  destruct x; try discriminate. cbn. by f_equal.
Qed.

Lemma no_infinity_non_null (s : Series) :
  no_infinity s -> dropna (to_floats s) = Fin <$> non_null_numbers s.
Proof. apply Forall_isfinite. Qed.

Lemma dropna_not_nan (xs : list float) : Forall (fun x => isnan x = false) (dropna xs).
Proof. unfold dropna. apply Forall_forall. by intros x [Hx _]%list_elem_of_filter. Qed.

Lemma foldl_fmax_PInf (x : float) (a : list float) :
  Forall (fun y => isnan y = false) (x :: a) -> PInf ∈ x :: a -> foldl fmax x a = PInf.
Proof.
  revert x. induction a as [|y a IH]; intros x Hnan Hin.
  - by apply list_elem_of_singleton in Hin as <-.
  - cbn. apply Forall_cons in Hnan as [Hx Hnan].
    pose proof Hnan as [Hy Ha]%Forall_cons.
    apply IH.
    + apply Forall_cons. split; [|done]. unfold fmax. by destruct (fle x y).
    + apply elem_of_cons in Hin as [<-|Hin].
      * assert (fmax PInf y = PInf) as -> by (by destruct y). left.
      * apply elem_of_cons in Hin as [<-|Hin]; [|by right].
        assert (fmax x PInf = PInf) as -> by (by destruct x). left.
Qed.

Lemma foldl_fmin_NInf (x : float) (a : list float) :
  Forall (fun y => isnan y = false) (x :: a) -> NInf ∈ x :: a -> foldl fmin x a = NInf.
Proof.
  revert x. induction a as [|y a IH]; intros x Hnan Hin.
  - by apply list_elem_of_singleton in Hin as <-.
  - cbn. apply Forall_cons in Hnan as [Hx Hnan].
    pose proof Hnan as [Hy Ha]%Forall_cons.
    apply IH.
    + apply Forall_cons. split; [|done]. unfold fmin. by destruct (fle x y).
    + apply elem_of_cons in Hin as [<-|Hin].
      * assert (fmin NInf y = NInf) as -> by (by destruct y). left.
      * apply elem_of_cons in Hin as [<-|Hin]; [|by right].
        assert (fmin x NInf = NInf) as -> by (by destruct x). left.
Qed.

(** numpy refuses to derive a range from data that holds an infinity. *)
Lemma histogram_infinity (a : list float) (bins : nat) :
  Forall (fun y => isnan y = false) a ->
  ~ Forall (fun x => isfinite x = true) a ->
  histogram a bins = Raise ValueError.
Proof.
  intros Hnan Hinf.
  assert (Hin : PInf ∈ a \/ NInf ∈ a).
  { apply not_Forall_Exists in Hinf; [|apply _].
    apply Exists_exists in Hinf as (x & Hx & Hfin).
    rewrite Forall_forall in Hnan. specialize (Hnan x Hx).
    destruct x; [by destruct Hfin|by left|by right|discriminate]. }
  unfold histogram, get_outer_edges.
  destruct a as [|x a]; [destruct Hin as [Hin|Hin]; by apply elem_of_nil in Hin|].
  unfold amin, amax. rewrite !Return_bind.
  destruct Hin as [Hin|Hin].
  - rewrite (foldl_fmax_PInf x a) by done. cbn. by rewrite andb_false_r.
  - by rewrite (foldl_fmin_NInf x a) by done.
Qed.

Lemma histogram_Return_finite (a : list float) (bins : nat) (r : list nat * list float) :
  Forall (fun y => isnan y = false) a ->
  histogram a bins = Return r ->
  Forall (fun x => isfinite x = true) a.
Proof.
  intros Hnan Hrun.
  destruct (decide (Forall (fun x => isfinite x = true) a)) as [|Hinf]; [done|].
  by rewrite histogram_infinity in Hrun.
Qed.

Lemma numeric_entry_Return (df : DataFrame) (col : string) (e : NumericStats) :
  numeric_entry df col = Return e ->
  exists s, getitem df col = Return s /\ no_infinity s /\ e = numeric_summary s.
Proof.
  unfold numeric_entry. intros (s & Hs & Hrun)%bind_Return. exists s. split; [done|].
  apply bind_Return in Hrun as ([hist edges] & Hh & [= <-]).
  pose proof (histogram_Return_finite _ _ _ (dropna_not_nan _) Hh) as Hfin.
  split; [done|].
  rewrite (no_infinity_non_null s Hfin), histogram_Fin in Hh.
  by injection Hh as <- <-.
Qed.


(** The entry of a numeric column in a report. *)
Lemma analyze_numeric_entry (df : DataFrame) (r : Stats) (s : Series) :
  unique_columns df -> analyze df = Return r -> s ∈ series df -> is_numeric s ->
  no_infinity s /\ numeric_stats r !! name s = Some (numeric_summary s).
Proof.
  intros Hnd Hrun Hs Hnum.
  apply analyze_inv in Hrun as (_ & _ & _ & Hin & _).
  destruct (Hin (name s)) as (e & He & Hlook).
  { apply elem_of_numeric_names. by exists s. }
  apply numeric_entry_Return in He as (s' & Hs' & Hfin & ->).
  rewrite getitem_unique in Hs' by done. by injection Hs' as <-.
Qed.

Lemma is_numeric_data (s : Series) :
  is_numeric s -> (exists xs, data s = Int64 xs) \/ (exists xs, data s = Float64 xs).
Proof.
  intros [H|H]%is_numeric_dtype; unfold series_dtype in H;
    destruct (data s) as [xs|xs|xs|xs]; try discriminate; eauto.
Qed.

Lemma count_numeric (s : Series) :
  is_numeric s -> count s = length (dropna (to_floats s)).
Proof.
  intros [[xs Hd]|[xs Hd]]%is_numeric_data; unfold count, to_floats; rewrite Hd.
  - assert (of_int <$> xs = Fin <$> (inject_Z <$> xs)) as ->
      by (by rewrite <- list_fmap_compose).
    by rewrite dropna_Fin, !length_fmap.
  - done.
Qed.

Lemma count_non_null_numbers (s : Series) :
  is_numeric s -> no_infinity s -> count s = length (non_null_numbers s).
Proof.
  intros Hnum Hfin. rewrite count_numeric by done.
  by rewrite (no_infinity_non_null s Hfin), length_fmap.
Qed.

(* ===================================================================== *)
(** * C1: the histogram counts add up to the non-null count *)
(* ===================================================================== *)

(** C1.  In every report of [analyze_data] on a table with distinct
    column names (of any number of rows, so in particular of one row or
    more), every numeric column has an entry whose [histogram_values] are
    ten counts that sum to the number of non-null cells of the column. *)
Theorem histogram_values_sum (df : DataFrame) (r : Stats) (s : Series) :
  unique_columns df ->
  analyze_data (Return df) = Return r ->
  s ∈ series df -> is_numeric s ->
  exists e,
    numeric_stats r !! name s = Some e /\
    length (histogram_values e) = 10 /\
    sum_list (histogram_values e) = count s.
Proof.
  intros Hnd Hrun Hs Hnum. cbn in Hrun.
  destruct (analyze_numeric_entry df r s Hnd Hrun Hs Hnum) as [Hfin Hlook].
  exists (numeric_summary s). split; [done|].
  unfold numeric_summary. cbn [histogram_values].
  split; [apply length_hist_counts|].
  rewrite sum_hist_counts. symmetry. by apply count_non_null_numbers.
Qed.

(* ===================================================================== *)
(** * Insertion sort *)
(* ===================================================================== *)

Lemma insert_Permutation {A : Type} (le : A -> A -> bool) (x : A) (l : list A) :
  insert le x l ≡ₚ x :: l.
Proof.
  induction l as [|y l IH]; [done|]. cbn. destruct (le x y); [done|].
  rewrite IH. apply Permutation_swap.
Qed.

Lemma sort_Permutation {A : Type} (le : A -> A -> bool) (l : list A) : sort le l ≡ₚ l.
Proof.
  induction l as [|x l IH]; [done|]. cbn. fold (sort le l).
  by rewrite insert_Permutation, IH.
Qed.

(** Inserting into a list sorted for [R] keeps it sorted, as soon as the
    comparison agrees with [R] on the inserted element. *)
Lemma insert_StronglySorted {A : Type} (R : relation A) (le : A -> A -> bool)
    (x : A) (l : list A) :
  (forall y z, le x y = true -> R y z -> le x z = true) ->
  (forall y, y ∈ l -> le x y = true -> R x y) ->
  (forall y, y ∈ l -> le x y = false -> R y x) ->
  StronglySorted R l -> StronglySorted R (insert le x l).
Proof.
  intros Hcompat Hle Hgt. induction 1 as [|y l Hl IH Hy].
  - cbn. by repeat constructor.
  - cbn. destruct (le x y) eqn:E.
    + constructor; [by constructor|].
      apply Forall_cons. split; [apply Hle; [left|done]|].
      rewrite Forall_forall in Hy |- *. intros z Hz.
      apply Hle; [by right|]. by apply (Hcompat y), Hy.
    + constructor.
      * apply IH; intros z Hz; [apply Hle | apply Hgt]; by right.
      * rewrite insert_Permutation. apply Forall_cons. split; [|done].
        apply Hgt; [left|done].
Qed.


Lemma sort_float_le_Fin (qs : list Q) :
  sort float_le (Fin <$> qs) = Fin <$> sort Qle_bool qs.
Proof.
  induction qs as [|q qs IH]; [done|].
  cbn. fold (sort float_le (Fin <$> qs)) (sort Qle_bool qs). rewrite IH.
  generalize (sort Qle_bool qs). clear IH. intros l.
  induction l as [|y l IH]; [done|]. cbn. destruct (Qle_bool q y); [done|].
  by rewrite IH.
Qed.

(* ===================================================================== *)
(** * The reductions on finite data *)
(* ===================================================================== *)

Local Open Scope Q_scope.

Lemma Qsign_of_nat_pos (n : nat) : (0 < n)%nat -> Qsign (inject_Z (Z.of_nat n)) = Gt.
Proof.
  intros Hn. apply Qsign_pos. change 0 with (inject_Z 0). rewrite <- Zlt_Qlt. lia.
Qed.

Lemma fdiv_of_nat (q : Q) (n : nat) :
  (0 < n)%nat -> fdiv (Fin q) (of_nat n) = Fin (q / inject_Z (Z.of_nat n)).
Proof. intros Hn. unfold fdiv, of_nat. by rewrite Qsign_of_nat_pos. Qed.

Lemma nanmin_Fin (q : Q) (qs : list Q) :
  nanmin (Fin <$> q :: qs) = Fin (foldl Qmin_b q qs).
Proof. unfold nanmin. rewrite dropna_Fin. cbn. apply foldl_fmin_Fin. Qed.

Lemma nanmax_Fin (q : Q) (qs : list Q) :
  nanmax (Fin <$> q :: qs) = Fin (foldl Qmax_b q qs).
Proof. unfold nanmax. rewrite dropna_Fin. cbn. apply foldl_fmax_Fin. Qed.

Lemma nanmean_Fin (qs : list Q) :
  (0 < length qs)%nat ->
  nanmean (Fin <$> qs) = Fin (Qsum qs / inject_Z (Z.of_nat (length qs))).
Proof.
  intros Hn. unfold nanmean. rewrite dropna_Fin, length_fmap, fsum_Fin.
  rewrite decide_True by done. by apply fdiv_of_nat.
Qed.


Lemma nanmedian_Fin (qs : list Q) :
  (0 < length qs)%nat ->
  let part := sort Qle_bool qs in
  let index := (length qs / 2)%nat in
  nanmedian (Fin <$> qs)
  = Fin (if Nat.odd (length qs) then nth index part 0
         else (nth (index - 1) part 0 + nth index part 0) / 2).
Proof.
  intros Hn part index. unfold nanmedian. rewrite dropna_Fin.
  destruct qs as [|q qs]; [cbn in Hn; lia|].
  rewrite fmap_cons. rewrite <- (fmap_cons Fin).
  rewrite sort_float_le_Fin. fold part.
  assert (Hlen : length part = length (q :: qs))
    by (unfold part; by rewrite sort_Permutation).
  rewrite length_fmap, Hlen. fold index.
  assert (Hidx : (index < length part)%nat).
  { rewrite Hlen. unfold index. apply Nat.div_lt; [done|lia]. }
  assert (Hnth : forall i, (i < length part)%nat ->
            default NaN ((Fin <$> part) !! i) = Fin (nth i part 0)).
  { intros i Hi. rewrite list_lookup_fmap.
    destruct (lookup_lt_is_Some_2 part i Hi) as [y Hy]. rewrite Hy. cbn.
    f_equal. symmetry. by apply nth_lookup_Some. }
  destruct (Nat.odd _).
  - by apply Hnth.
  - rewrite !Hnth by lia. cbn. done.
Qed.

(* ===================================================================== *)
(** * C4: edges and bins of the histogram *)
(* ===================================================================== *)





Lemma edge_lt_succ (first_edge last_edge : Q) (b : nat) :
  first_edge < last_edge -> edge first_edge last_edge b < edge first_edge last_edge (S b).
Proof.
  intros Hlt. rewrite !edge_eq by done. pose proof (bin_width_pos _ _ Hlt).
  rewrite Nat2Z.inj_succ. unfold Z.succ. rewrite inject_Z_plus.
  change (inject_Z 1) with 1. lra.
Qed.


(* ===================================================================== *)
(** * C2: mean, median, standard deviation, minimum and maximum *)
(* ===================================================================== *)



(* ===================================================================== *)
(** * Frequencies: the table of [value_counts] *)
(* ===================================================================== *)

Local Open Scope nat_scope.

Lemma occurrences_snoc (k v : pyval) (vs : list pyval) :
  occurrences k (vs ++ [v]) = occurrences k vs + (if decide (v = k) then 1 else 0).
Proof.
  unfold occurrences. rewrite filter_app, length_app. f_equal.
  rewrite filter_cons, filter_nil. by case_decide.
Qed.

Lemma occurrences_0 (k : pyval) (vs : list pyval) : k ∉ vs -> occurrences k vs = 0.
Proof.
  intros Hk. unfold occurrences. induction vs as [|v vs IH]; [done|].
  apply not_elem_of_cons in Hk as [Hne Hk].
  by rewrite filter_cons_False, IH by done.
Qed.

Lemma unique_snoc (vs : list pyval) (v : pyval) :
  unique (vs ++ [v]) = if decide (v ∈ unique vs) then unique vs else unique vs ++ [v].
Proof. unfold unique. by rewrite foldl_app. Qed.

Lemma value_count_snoc (vs : list pyval) (v : pyval) :
  value_count (vs ++ [v]) = incr v (value_count vs).
Proof. unfold value_count. by rewrite foldl_app. Qed.

Lemma elem_of_unique (vs : list pyval) (k : pyval) : k ∈ unique vs <-> k ∈ vs.
Proof.
  induction vs as [|v vs IH] using rev_ind; [done|].
  rewrite unique_snoc, elem_of_app, list_elem_of_singleton.
  case_decide as Hv; [|rewrite elem_of_app, list_elem_of_singleton; tauto].
  split; [tauto|]. intros [?| ->]; [tauto|]. done.
Qed.

Lemma NoDup_unique (vs : list pyval) : NoDup (unique vs).
Proof.
  induction vs as [|v vs IH] using rev_ind; [constructor|].
  rewrite unique_snoc. case_decide as Hv; [done|].
  apply NoDup_app. split; [done|]. split; [|apply NoDup_singleton].
  intros k Hk ->%list_elem_of_singleton. done.
Qed.

Lemma seen_before_snoc (vs : list pyval) (v k1 k2 : pyval) :
  seen_before vs k1 k2 -> seen_before (vs ++ [v]) k1 k2.
Proof.
  intros (l1 & l2 & -> & H1 & H2). exists l1, (l2 ++ [v]).
  by rewrite app_assoc.
Qed.

Lemma StronglySorted_impl {A : Type} (R1 R2 : relation A) (l : list A) :
  (forall x y, R1 x y -> R2 x y) -> StronglySorted R1 l -> StronglySorted R2 l.
Proof.
  intros Himpl. induction 1 as [|x l Hl IH Hx]; constructor; [done|].
  eapply Forall_impl; [done|]. apply Himpl.
Qed.

(** The distinct values come in the order they are first met. *)
Lemma unique_seen_before (vs : list pyval) :
  StronglySorted (seen_before vs) (unique vs).
Proof.
  induction vs as [|v vs IH] using rev_ind; [constructor|].
  rewrite unique_snoc.
  apply (StronglySorted_impl _ (seen_before (vs ++ [v]))) in IH;
    [|intros; by apply seen_before_snoc].
  case_decide as Hv; [done|].
  apply StronglySorted_app_2; [|done|repeat constructor].
  intros k1 k2 Hk1 ->%list_elem_of_singleton.
  exists vs, [v]. split; [done|].
  split; [by apply elem_of_unique | by rewrite <- (elem_of_unique vs)].
Qed.

Lemma incr_keys (k : pyval) (table : list (pyval * nat)) :
  (incr k table).*1 = if decide (k ∈ table.*1) then table.*1 else table.*1 ++ [k].
Proof.
  induction table as [|[k' n] table IH]; [done|].
  cbn. destruct (decide (k = k')) as [->|Hne].
  - rewrite decide_True by left. done.
  - cbn. rewrite IH. destruct (decide (k ∈ table.*1)) as [Hin|Hin].
    + rewrite decide_True by by right. done.
    + rewrite decide_False; [done|]. by apply not_elem_of_cons.
Qed.

Lemma value_count_keys (vs : list pyval) : (value_count vs).*1 = unique vs.
Proof.
  induction vs as [|v vs IH] using rev_ind; [done|].
  by rewrite value_count_snoc, unique_snoc, incr_keys, IH.
Qed.

Lemma incr_counts (v : pyval) (table : list (pyval * nat)) (vs : list pyval) :
  NoDup table.*1 ->
  Forall (fun kn => kn.2 = occurrences kn.1 vs) table ->
  (v ∉ table.*1 -> occurrences v vs = 0) ->
  Forall (fun kn => kn.2 = occurrences kn.1 (vs ++ [v])) (incr v table).
Proof.
  induction table as [|[k n] table IH]; intros Hnd Hall Hnew.
  - cbn. repeat constructor. cbn. rewrite occurrences_snoc, Hnew, decide_True; [done..|].
    apply not_elem_of_nil.
  - cbn in *. apply NoDup_cons in Hnd as [Hk Hnd].
    apply Forall_cons in Hall as [Hn Hall]. cbn in Hn.
    destruct (decide (v = k)) as [->|Hne].
    + constructor.
      * cbn. rewrite occurrences_snoc, decide_True by done. lia.
      * rewrite Forall_forall in Hall |- *. intros [k' n'] Hin. cbn.
        rewrite occurrences_snoc, decide_False.
        -- pose proof (Hall _ Hin) as Hn'. cbn in Hn'. lia.
        -- intros ->. apply Hk. by apply (list_elem_of_fmap_2 fst) in Hin.
    + constructor.
      * cbn. rewrite occurrences_snoc, decide_False by done. lia.
      * apply IH; [done..|]. intros Hv. apply Hnew. by apply not_elem_of_cons.
Qed.

Lemma value_count_counts (vs : list pyval) :
  Forall (fun kn => kn.2 = occurrences kn.1 vs) (value_count vs).
Proof.
  induction vs as [|v vs IH] using rev_ind; [constructor|].
  rewrite value_count_snoc. apply incr_counts; [|done|].
  - rewrite value_count_keys. apply NoDup_unique.
  - rewrite value_count_keys, elem_of_unique. apply occurrences_0.
Qed.

Lemma incr_sum (v : pyval) (table : list (pyval * nat)) :
  sum_list (incr v table).*2 = S (sum_list table.*2).
Proof.
  induction table as [|[k n] table IH]; [done|].
  cbn. case_decide; cbn; [done|]. rewrite IH. lia.
Qed.

Lemma value_count_sum (vs : list pyval) : sum_list (value_count vs).*2 = length vs.
Proof.
  induction vs as [|v vs IH] using rev_ind; [done|].
  rewrite value_count_snoc, incr_sum, IH, length_app. cbn. lia.
Qed.

(** The first-seen order of the table, as a sortedness. *)
Lemma value_count_seen_before (vs : list pyval) :
  StronglySorted (fun a b => seen_before vs a.1 b.1) (value_count vs).
Proof.
  pose proof (unique_seen_before vs) as Hs. rewrite <- value_count_keys in Hs.
  induction (value_count vs) as [|a t IH]; [constructor|].
  cbn in Hs. apply StronglySorted_cons in Hs as [Ha Ht].
  constructor; [by apply IH|].
  apply Forall_forall. intros b Hb.
  apply (proj1 (Forall_forall _ _) Ha). by apply list_elem_of_fmap_2.
Qed.

(** Sorting the table by descending count keeps the first-seen order
    among equal counts. *)
Lemma sort_ranks_before (vs : list pyval) (table : list (pyval * nat)) :
  StronglySorted (fun a b => seen_before vs a.1 b.1) table ->
  StronglySorted (ranks_before vs) (sort (fun a b => b.2 <=? a.2) table).
Proof.
  induction 1 as [|a t Ht IH Ha]; [constructor|].
  cbn. fold (sort (fun a b : pyval * nat => b.2 <=? a.2) t).
  apply insert_StronglySorted; [| | |done].
  - intros y z Hy%Nat.leb_le [Hz|[Hz _]]; apply Nat.leb_le; lia.
  - intros y Hy Hle%Nat.leb_le.
    rewrite sort_Permutation in Hy. rewrite Forall_forall in Ha.
    unfold ranks_before. destruct (decide (y.2 < a.2)); [by left|].
    right. split; [lia|]. by apply Ha.
  - intros y _ Hgt%Nat.leb_gt. by left.
Qed.

(* ===================================================================== *)
(** * The entry of a categorical column *)
(* ===================================================================== *)

Lemma analyze_categorical_entry (df : DataFrame) (r : Stats) (s : Series) :
  unique_columns df -> analyze df = Return r -> s ∈ series df -> ~ is_numeric s ->
  categorical_stats r !! name s = Some (categorical_summary s).
Proof.
  intros Hnd Hrun Hs Hcat.
  apply analyze_inv in Hrun as (_ & _ & _ & _ & _ & Hin & _).
  destruct (Hin (name s)) as (e & He & Hlook).
  { apply elem_of_categorical_names. by exists s. }
  unfold categorical_entry in He. rewrite getitem_unique in He by done.
  rewrite Return_bind in He. by injection He as <-.
Qed.

Lemma length_non_null_values (s : Series) :
  ~ is_numeric s -> length (non_null_values s) = count s.
Proof.
  intros Hcat. unfold non_null_values, count.
  destruct (data s) as [xs|xs|xs|xs] eqn:Hd.
  - destruct Hcat. apply is_numeric_dtype. left. unfold series_dtype. by rewrite Hd.
  - destruct Hcat. apply is_numeric_dtype. right. unfold series_dtype. by rewrite Hd.
  - clear Hd. induction xs as [|[x|] xs IH]; cbn; [done|by rewrite IH|done].
  - clear Hd. induction xs as [|[x|] xs IH]; cbn; [done|by rewrite IH|done].
Qed.

Lemma Series_value_counts_Permutation (s : Series) :
  Series_value_counts s ≡ₚ value_count (non_null_values s).
Proof. apply sort_Permutation. Qed.

Lemma Series_value_counts_keys (s : Series) :
  (Series_value_counts s).*1 ≡ₚ unique (non_null_values s).
Proof. by rewrite Series_value_counts_Permutation, value_count_keys. Qed.

Lemma Series_value_counts_elem_of (s : Series) (k : pyval) (n : nat) :
  (k, n) ∈ Series_value_counts s <->
  k ∈ non_null_values s /\ n = occurrences k (non_null_values s).
Proof.
  rewrite Series_value_counts_Permutation.
  pose proof (value_count_counts (non_null_values s)) as Hc.
  rewrite Forall_forall in Hc. split.
  - intros Hin. split; [|apply (Hc _ Hin)].
    apply elem_of_unique. rewrite <- value_count_keys.
    by apply (list_elem_of_fmap_2 fst) in Hin.
  - intros [Hk ->]. apply elem_of_unique in Hk. rewrite <- value_count_keys in Hk.
    apply list_elem_of_fmap in Hk as ([k' n'] & -> & Hin).
    by rewrite <- (Hc _ Hin).
Qed.

(* ===================================================================== *)
(** * C3: ranking of the values of a categorical column *)
(* ===================================================================== *)


(* ===================================================================== *)
(** * C7: the capped mapping and the uncapped number of distinct values *)
(* ===================================================================== *)

Lemma dict_sum_insert (d : gmap string nat) (k : string) (v : nat) :
  dict_sum (<[k := v]> d) <= v + dict_sum d.
Proof.
  assert (Hcomm : forall (j1 j2 : string) (z1 z2 y : nat),
             z1 + (z2 + y) = z2 + (z1 + y)) by (intros; lia).
  unfold dict_sum. destruct (d !! k) as [w|] eqn:Hk.
  - rewrite <- insert_delete_eq.
    rewrite map_fold_insert_L;
      [|intros; apply Hcomm; done|apply lookup_delete_eq].
    rewrite (map_fold_delete_L _ _ k w d); [|intros; apply Hcomm; done|done]. lia.
  - rewrite map_fold_insert_L; [|intros; apply Hcomm; done|done]. lia.
Qed.

Lemma dict_sum_acc (items : list (string * nat)) (d : gmap string nat) :
  dict_sum (foldl (fun d kv => <[kv.1 := kv.2]> d) d items)
  <= dict_sum d + sum_list items.*2.
Proof.
  revert d. induction items as [|[k v] items IH]; intros d; cbn; [lia|].
  etrans; [apply IH|]. pose proof (dict_sum_insert d k v). lia.
Qed.

Lemma dict_sum_le (items : list (string * nat)) : dict_sum (dict items) <= sum_list items.*2.
Proof. unfold dict. etrans; [apply dict_sum_acc|]. done. Qed.

Lemma dict_size_acc {V : Type} (items : list (string * V)) (d : gmap string V) :
  size (foldl (fun d kv => <[kv.1 := kv.2]> d) d items) <= size d + length items.
Proof.
  revert d. induction items as [|[k v] items IH]; intros d; cbn; [lia|].
  etrans; [apply IH|]. rewrite map_size_insert. destruct (d !! k); cbn; lia.
Qed.

Lemma sum_list_take_le (n : nat) (l : list nat) : sum_list (take n l) <= sum_list l.
Proof.
  rewrite <- (take_drop n l) at 2. rewrite sum_list_with_app. lia.
Qed.

(** C7.  In every report of [analyze_data], the counts of the
    [value_counts] mapping of a categorical column, which holds ten
    entries at most, sum to no more than the number of non-null cells of
    the column; [unique_values] is the number of all distinct non-null
    values, beyond the ten shown, and so is at least the number of
    labels. *)
Theorem value_counts_capped (df : DataFrame) (r : Stats) (s : Series) :
  unique_columns df ->
  analyze_data (Return df) = Return r ->
  s ∈ series df -> ~ is_numeric s ->
  exists e distinct,
    categorical_stats r !! name s = Some e /\
    size (value_counts e) <= 10 /\
    dict_sum (value_counts e) <= count s /\
    NoDup distinct /\
    (forall k, k ∈ distinct <-> k ∈ non_null_values s) /\
    unique_values e = length distinct /\
    length (labels e) = Nat.min 10 (unique_values e) /\
    length (labels e) <= unique_values e.
Proof.
  intros Hnd Hrun Hs Hcat. cbn in Hrun.
  exists (categorical_summary s), (unique (non_null_values s)).
  split; [by apply (analyze_categorical_entry df)|].
  unfold categorical_summary, head, Series_nunique.
  cbn [value_counts unique_values labels].
  assert (Hlen : length (Series_value_counts s) = length (unique (non_null_values s))).
  { by rewrite <- (length_fmap fst), Series_value_counts_keys. }
  split.
  { unfold dict. etrans; [apply dict_size_acc|].
    rewrite map_size_empty, length_fmap, length_take. lia. }
  split.
  { etrans; [apply dict_sum_le|].
    rewrite <- list_fmap_compose.
    rewrite (list_fmap_ext _ snd (take 10 (Series_value_counts s))) by done.
    rewrite fmap_take. etrans; [apply sum_list_take_le|].
    rewrite Series_value_counts_Permutation, value_count_sum.
    by rewrite length_non_null_values. }
  split; [apply NoDup_unique|]. split; [apply elem_of_unique|]. split; [done|].
  rewrite length_fmap, length_take, Hlen. split; [done|]. lia.
Qed.

(* ===================================================================== *)
(** * Tables without infinities, columns without values *)
(* ===================================================================== *)













(* ===================================================================== *)
(** * C10: a numeric column without values *)
(* ===================================================================== *)


(* ===================================================================== *)
(** * C8: a table without rows *)
(* ===================================================================== *)


(* ===================================================================== *)
(** * C9: errors *)
(* ===================================================================== *)


(* ===================================================================== *)
(** * The claims that fail as worded *)
(* ===================================================================== *)




(* ===================================================================== *)
(** * The theorems at work on the example tables *)
(* ===================================================================== *)

Lemma records_table_unique : unique_columns records_table.
Proof. by_decision. Defined.

Lemma records_table_rectangular : rectangular records_table.
Proof. repeat constructor. Defined.

Lemma records_table_report :
  analyze_data (Return records_table) = Return (report_of records_table).
Proof. vm_compute. reflexivity. Defined.

Lemma age_column_in_records : age_column ∈ series records_table.
Proof. apply list_elem_of_In. simpl. tauto. Defined.

Lemma department_column_in_records : department_column ∈ series records_table.
Proof. apply list_elem_of_In. simpl. tauto. Defined.

Lemma department_column_categorical : ~ is_numeric department_column.
Proof. vm_compute. discriminate. Defined.

Lemma histogram_values_sum_witness :
  exists e,
    numeric_stats (report_of records_table) !! name age_column = Some e /\
    length (histogram_values e) = 10 /\
    sum_list (histogram_values e) = count age_column.
Proof.
  apply (histogram_values_sum records_table (report_of records_table) age_column).
  - exact records_table_unique.
  - exact records_table_report.
  - exact age_column_in_records.
  - vm_compute. reflexivity.
Defined.




Lemma missing_values_complement_witness :
  exists missing,
    missing_values (report_of records_table) !! name age_column = Some missing /\
    missing = isnull_sum age_column /\
    missing + count age_column = total_rows (basic_info (report_of records_table)).
Proof.
  apply (missing_values_complement records_table (report_of records_table) age_column).
  - exact records_table_rectangular.
  - exact records_table_unique.
  - exact records_table_report.
  - exact age_column_in_records.
Defined.

Lemma classification_by_storage_type_witness :
  numeric_columns (basic_info (report_of records_table))
  + categorical_columns (basic_info (report_of records_table))
  = total_columns (basic_info (report_of records_table)).
Proof.
  apply (classification_by_storage_type records_table (report_of records_table)).
  exact records_table_report.
Defined.

Lemma value_counts_capped_witness :
  exists e,
    categorical_stats (report_of records_table) !! name department_column = Some e /\
    dict_sum (value_counts e) <= count department_column /\
    length (labels e) <= unique_values e.
Proof.
  destruct (value_counts_capped records_table (report_of records_table)
              department_column)
    as (e & distinct & Hlook & _ & Hsum & _ & _ & _ & _ & Hlabels).
  - exact records_table_unique.
  - exact records_table_report.
  - exact department_column_in_records.
  - exact department_column_categorical.
  - exists e. repeat split; assumption.
Defined.




(* ===================================================================== *)
(** * Further properties of the report: keys and column types *)
(* ===================================================================== *)

(** X1.  In every report of [analyze_data] on a table with distinct
    column names, [numeric_stats] has an entry exactly for the names of
    the numeric columns and [categorical_stats] exactly for the names of
    the categorical columns; no name is in both, and the names in either
    are the [columns] of [basic_info]. *)
Theorem stats_keys_partition (df : DataFrame) (r : Stats) (col : string) :
  unique_columns df ->
  analyze_data (Return df) = Return r ->
  (is_Some (numeric_stats r !! col)
     <-> exists s, s ∈ series df /\ name s = col /\ is_numeric s) /\
  (is_Some (categorical_stats r !! col)
     <-> exists s, s ∈ series df /\ name s = col /\ ~ is_numeric s) /\
  ~ (is_Some (numeric_stats r !! col) /\ is_Some (categorical_stats r !! col)) /\
  (col ∈ columns (basic_info r)
     <-> is_Some (numeric_stats r !! col) \/ is_Some (categorical_stats r !! col)).
Proof.
  intros Hnd Hrun. cbn in Hrun.
  pose proof (analyze_inv _ _ Hrun) as (Hb & _ & _ & Hn & Hn' & Hc & Hc').
  assert (Hnum : is_Some (numeric_stats r !! col)
                 <-> exists s, s ∈ series df /\ name s = col /\ is_numeric s).
  { rewrite <- elem_of_numeric_names. split.
    - intros Hsome. destruct (decide (col ∈ numeric_names df)) as [|Hnot]; [done|].
      rewrite (Hn' col Hnot) in Hsome. by destruct Hsome.
    - intros Hin. destruct (Hn col Hin) as (e & _ & ->). by eexists. }
  assert (Hcat : is_Some (categorical_stats r !! col)
                 <-> exists s, s ∈ series df /\ name s = col /\ ~ is_numeric s).
  { rewrite <- elem_of_categorical_names. split.
    - intros Hsome. destruct (decide (col ∈ categorical_names df)) as [|Hnot]; [done|].
      rewrite (Hc' col Hnot) in Hsome. by destruct Hsome.
    - intros Hin. destruct (Hc col Hin) as (e & _ & ->). by eexists. }
  split; [done|]. split; [done|]. split.
  - rewrite Hnum, Hcat. intros [(s & Hs & Hname & Hyes) (s' & Hs' & Hname' & Hno)].
    apply Hno. rewrite (NoDup_fmap_elem_eq name (series df) s' s); [done..|].
    by rewrite Hname, Hname'.
  - rewrite Hb, Hnum, Hcat. cbn. unfold df_columns. rewrite list_elem_of_fmap. split.
    + intros (s & -> & Hs). destruct (decide (is_numeric s)); [left|right]; by exists s.
    + intros [(s & Hs & <- & _)|(s & Hs & <- & _)]; by exists s.
Qed.


(* ===================================================================== *)
(** * Further properties of the report: numeric columns *)
(* ===================================================================== *)

Local Open Scope Q_scope.

(** The fields of the entry of a column whose non-null values are the
    finite [q :: qs]. *)
Lemma numeric_summary_fields (s : Series) (q : Q) (qs : list Q) :
  dropna (to_floats s) = Fin <$> q :: qs ->
  mean (numeric_summary s) = Fin (spec_mean (q :: qs)) /\
  median (numeric_summary s)
    = Fin (let part := sort Qle_bool (q :: qs) in
           let n := length (q :: qs) in
           if Nat.odd n then nth (n / 2) part 0
           else (nth (n / 2 - 1) part 0 + nth (n / 2) part 0) / 2) /\
  min (numeric_summary s) = Fin (foldl Qmin_b q qs) /\
  max (numeric_summary s) = Fin (foldl Qmax_b q qs) /\
  non_null_numbers s = q :: qs.
Proof.
  intros Hqs. unfold numeric_summary. cbn [mean median min max].
  unfold Series_mean, Series_median, Series_min, Series_max.
  assert (Hmean : nanmean (to_floats s) = nanmean (Fin <$> q :: qs))
    by (unfold nanmean; by rewrite Hqs, dropna_Fin).
  assert (Hmedian : nanmedian (to_floats s) = nanmedian (Fin <$> q :: qs))
    by (unfold nanmedian; by rewrite Hqs, dropna_Fin).
  assert (Hmin : nanmin (to_floats s) = nanmin (Fin <$> q :: qs))
    by (unfold nanmin; by rewrite Hqs, dropna_Fin).
  assert (Hmax : nanmax (to_floats s) = nanmax (Fin <$> q :: qs))
    by (unfold nanmax; by rewrite Hqs, dropna_Fin).
  rewrite Hmean, Hmedian, Hmin, Hmax.
  rewrite nanmean_Fin, nanmedian_Fin, nanmin_Fin, nanmax_Fin by (cbn; lia).
  repeat split. unfold non_null_numbers. by rewrite Hqs, finite_part_Fin.
Qed.






Lemma hist_counts_lookup_bin (qs : list Q) (b : nat) :
  (b < 10)%nat ->
  hist_counts qs !! b
  = Some (length (filter (fun x => bin_of (outer_edges qs).1 (outer_edges qs).2 x
                                   = Z.of_nat b) qs)).
Proof.
  intros Hb. unfold hist_counts. by rewrite list_lookup_fmap, lookup_seq_lt by done.
Qed.

Lemma length_filter_pos {A : Type} (P : A -> Prop) `{!forall x, Decision (P x)}
    (l : list A) (x : A) :
  x ∈ l -> P x -> (1 <= length (filter P l))%nat.
Proof.
  intros Hx HP. assert (Hin : x ∈ filter P l) by by apply list_elem_of_filter.
  destruct (filter P l); [by apply elem_of_nil in Hin|cbn; lia].
Qed.

Lemma outer_edges_distinct (q : Q) (qs : list Q) :
  foldl Qmin_b q qs < foldl Qmax_b q qs ->
  outer_edges (q :: qs) = (foldl Qmin_b q qs, foldl Qmax_b q qs).
Proof.
  intros Hlt. unfold outer_edges. destruct (Qeq_bool _ _) eqn:E; [|done].
  apply Qeq_bool_iff in E. lra.
Qed.


(** X4.  In every report of [analyze_data], when the minimum of a numeric
    column is below its maximum the first and the last of the ten bins are
    not empty: the minimum is counted in the first and the maximum in the
    last. *)
Theorem extreme_bins_not_empty (df : DataFrame) (r : Stats) (s : Series) (lo hi : Q) :
  unique_columns df ->
  analyze_data (Return df) = Return r ->
  s ∈ series df -> is_numeric s ->
  Series_min s = Fin lo -> Series_max s = Fin hi -> lo < hi ->
  exists e first_count last_count,
    numeric_stats r !! name s = Some e /\
    min e = Fin lo /\ max e = Fin hi /\
    histogram_values e !! 0%nat = Some first_count /\
    histogram_values e !! 9%nat = Some last_count /\
    (1 <= first_count)%nat /\ (1 <= last_count)%nat.
Proof.
  intros Hnd Hrun Hs Hnum Hmin Hmax Hlt. cbn in Hrun.
  destruct (analyze_numeric_entry df r s Hnd Hrun Hs Hnum) as [Hfin Hlook].
  pose proof (no_infinity_non_null s Hfin) as Hqs.
  destruct (non_null_numbers s) as [|q qs] eqn:Eqs.
  { unfold Series_min, nanmin in Hmin. by rewrite Hqs in Hmin. }
  destruct (numeric_summary_fields s q qs Hqs) as (_ & _ & Hmin' & Hmax' & _).
  unfold numeric_summary in Hmin', Hmax'. cbn [min max] in Hmin', Hmax'.
  rewrite Hmin in Hmin'. rewrite Hmax in Hmax'.
  injection Hmin' as Hlo. injection Hmax' as Hhi. subst lo hi.
  destruct (foldl_Qmin_b_spec q qs) as [Hlo_in Hlo].
  destruct (foldl_Qmax_b_spec q qs) as [Hhi_in Hhi].
  set (lo := foldl Qmin_b q qs) in *. set (hi := foldl Qmax_b q qs) in *.
  assert (Hrange : forall x, x ∈ q :: qs -> lo <= x <= hi)
    by (intros x Hx; split; [by apply Hlo | by apply Hhi]).
  eexists (numeric_summary s), _, _. split; [exact Hlook|].
  unfold numeric_summary. cbn [min max histogram_values]. rewrite Eqs.
  split; [exact Hmin|]. split; [exact Hmax|].
  rewrite !hist_counts_lookup_bin by lia. rewrite outer_edges_distinct by done.
  cbn [fst snd]. fold lo hi. split; [done|]. split; [done|].
  pose proof (edge_lt_succ lo hi 0 Hlt) as H01.
  pose proof (edge_lt_succ lo hi 9 Hlt) as H910.
  pose proof (edge_eq lo hi Hlt 0) as H0. change (inject_Z (Z.of_nat 0)) with 0 in H0.
  assert (H10 : edge lo hi 10 = hi) by (unfold edge; by rewrite decide_True).
  split.
  - apply (length_filter_pos _ _ lo); [done|].
    apply (bin_of_spec lo hi Hlt lo 0); [by apply Hrange|lia|].
    split; [lra|left; lra].
  - apply (length_filter_pos _ _ hi); [done|].
    apply (bin_of_spec lo hi Hlt hi 9); [by apply Hrange|lia|].
    rewrite H10 in *. split; [lra|right; split; [done|lra]].
Qed.



(* ===================================================================== *)
(** * Further properties of the report: categorical columns *)
(* ===================================================================== *)

Local Open Scope nat_scope.

Lemma occurrences_pos (k : pyval) (vs : list pyval) : k ∈ vs -> 1 <= occurrences k vs.
Proof. intros Hk. by apply (length_filter_pos _ _ k). Qed.

Lemma StronglySorted_take {A : Type} (R : relation A) (n : nat) (l : list A) :
  StronglySorted R l -> StronglySorted R (take n l).
Proof.
  intros Hl. rewrite <- (take_drop n l) in Hl. by apply StronglySorted_app_1_l in Hl.
Qed.

(** X6.  In every report of [analyze_data], the [values] of a categorical
    column never increase along the sequence, each is at least one, they
    sum to no more than the number of non-null cells, and to exactly that
    number when the column has ten distinct values or fewer. *)
Theorem values_non_increasing (df : DataFrame) (r : Stats) (s : Series) :
  unique_columns df ->
  analyze_data (Return df) = Return r ->
  s ∈ series df -> ~ is_numeric s ->
  exists e,
    categorical_stats r !! name s = Some e /\
    StronglySorted (fun a b => b <= a) (values e) /\
    Forall (fun v => 1 <= v) (values e) /\
    sum_list (values e) <= count s /\
    (unique_values e <= 10 -> sum_list (values e) = count s).
Proof.
  intros Hnd Hrun Hs Hcat. cbn in Hrun.
  exists (categorical_summary s). split; [by apply (analyze_categorical_entry df)|].
  unfold categorical_summary, head, Series_nunique. cbn [values unique_values].
  assert (Hsum : sum_list (Series_value_counts s).*2 = count s).
  { by rewrite Series_value_counts_Permutation, value_count_sum,
      length_non_null_values. }
  split; [|split; [|split]].
  - apply (StronglySorted_fmap _ (ranks_before (non_null_values s))).
    + intros a b [Hlt|[Heq _]]; lia.
    + apply StronglySorted_take, sort_ranks_before, value_count_seen_before.
  - apply Forall_fmap, Forall_forall. intros [k n] Hkn. cbn.
    assert (Hin : (k, n) ∈ Series_value_counts s).
    { apply elem_of_take in Hkn as (i & Hi & _). by eapply list_elem_of_lookup_2. }
    apply Series_value_counts_elem_of in Hin as [Hk ->]. by apply occurrences_pos.
  - rewrite fmap_take, <- Hsum. apply sum_list_take_le.
  - intros Hfew. rewrite take_ge; [done|].
    by rewrite <- (length_fmap fst), Series_value_counts_keys.
Qed.

Lemma dict_sum_acc_NoDup (items : list (string * nat)) (d : gmap string nat) :
  NoDup items.*1 -> (forall k, k ∈ items.*1 -> d !! k = None) ->
  dict_sum (foldl (fun d kv => <[kv.1 := kv.2]> d) d items)
  = dict_sum d + sum_list items.*2.
Proof.
  revert d. induction items as [|[k v] items IH]; intros d Hnd Hfresh; cbn; [lia|].
  cbn in Hnd. apply NoDup_cons in Hnd as [Hk Hnd].
  rewrite IH; [|done|].
  - unfold dict_sum. rewrite map_fold_insert_L; [lia|intros; lia|].
    apply Hfresh. left.
  - intros k' Hk'. rewrite lookup_insert_ne by (intros ->; done).
    apply Hfresh. by right.
Qed.

(** X7.  In every report of [analyze_data], for a column of strings the
    labels are pairwise distinct, the [value_counts] mapping sends each
    label to the count at the same position of [values], holds as many
    entries as there are labels, and its counts sum to the sum of
    [values]. *)
Theorem object_column_mapping_agrees (df : DataFrame) (r : Stats) (s : Series)
    (xs : list (option string)) :
  unique_columns df ->
  analyze_data (Return df) = Return r ->
  s ∈ series df -> data s = Object xs ->
  exists e,
    categorical_stats r !! name s = Some e /\
    NoDup (labels e) /\
    (forall i label, labels e !! i = Some label ->
       exists v, values e !! i = Some v /\ value_counts e !! label = Some v) /\
    (forall label, is_Some (value_counts e !! label) <-> label ∈ labels e) /\
    dict_sum (value_counts e) = sum_list (values e).
Proof.
  intros Hnd Hrun Hs Hdata. cbn in Hrun.
  assert (Hcat : ~ is_numeric s).
  { rewrite is_numeric_dtype. unfold series_dtype. rewrite Hdata. cbn.
    intros [|]; discriminate. }
  exists (categorical_summary s). split; [by apply (analyze_categorical_entry df)|].
  unfold categorical_summary, head. cbn [labels values value_counts].
  set (top := take 10 (Series_value_counts s)).
  assert (Hkeys : NoDup top.*1).
  { unfold top. rewrite fmap_take. eapply sublist_NoDup; [|apply sublist_take].
    rewrite Series_value_counts_keys. apply NoDup_unique. }
  assert (Hstr : forall kn, kn ∈ top -> kn.1 = VStr (py_str kn.1)).
  { intros [k n] Hkn. cbn.
    assert (Hin : (k, n) ∈ Series_value_counts s).
    { apply elem_of_take in Hkn as (i & Hi & _). by eapply list_elem_of_lookup_2. }
    apply Series_value_counts_elem_of in Hin as [Hk _].
    unfold non_null_values in Hk. rewrite Hdata in Hk.
    apply list_elem_of_omap in Hk as ([x|] & _ & Hx); [|done].
    by injection Hx as <-. }
  assert (Hlabels : NoDup ((fun kv => py_str kv.1) <$> top)).
  { apply (NoDup_fmap_2_strong (fun kv : pyval * nat => py_str kv.1)).
    - intros a b Ha Hb Hab.
      apply (NoDup_fmap_elem_eq fst top); [done..|].
      by rewrite (Hstr a Ha), (Hstr b Hb), Hab.
    - eapply NoDup_fmap_1. exact Hkeys. }
  assert (Hitems : ((fun kv : pyval * nat => (py_str kv.1, kv.2)) <$> top).*1
                   = (fun kv => py_str kv.1) <$> top)
    by (by rewrite <- list_fmap_compose).
  assert (Hitems2 : ((fun kv : pyval * nat => (py_str kv.1, kv.2)) <$> top).*2
                    = top.*2)
    by (by rewrite <- list_fmap_compose).
  split; [done|]. split; [|split].
  - intros i label Hi. apply list_lookup_fmap_Some in Hi as ([k n] & -> & Hkn).
    exists n. split; [by rewrite list_lookup_fmap, Hkn|].
    apply dict_lookup_Some; [by rewrite Hitems|].
    apply list_elem_of_fmap. exists (k, n). split; [done|].
    by eapply list_elem_of_lookup_2.
  - intros label. rewrite <- Hitems. split.
    + intros Hsome.
      destruct (decide (label ∈ ((fun kv : pyval * nat => (py_str kv.1, kv.2))
                                 <$> top).*1)) as [|Hnot]; [done|].
      rewrite (dict_lookup_None _ _ Hnot) in Hsome. by destruct Hsome.
    + apply dict_acc_is_Some.
  - unfold dict. rewrite dict_sum_acc_NoDup; [|by rewrite Hitems|done].
    rewrite Hitems2. done.
Qed.

(* ===================================================================== *)
(** * Further properties of the report: infinite cells *)
(* ===================================================================== *)




(* ===================================================================== *)
(** * The record store: pagination *)
(* ===================================================================== *)

Module StoreFacts.
Import Store.








(** X12.  [GET /records/] with [per_page=0] fails for every page number:
    the division that computes [total_pages] raises [ZeroDivisionError],
    which the endpoint does not catch; a negative [per_page] never yields
    a page either. *)
Theorem get_records_bad_page_size (scan : gmap Z Row -> list Row) (p per_page : Z)
    (db : DB) :
  (per_page <= 0)%Z ->
  (per_page = 0%Z -> get_records scan p per_page db = Fail ZeroDivisionError) /\
  (per_page < 0 -> get_records scan p per_page db = Fail DataError)%Z /\
  (forall pg, get_records scan p per_page db ≠ Ok pg).
Proof.
  intros Hper. unfold get_records. split; [|split].
  - intros ->. by rewrite Z.mul_0_r.
  - intros Hneg. rewrite (proj2 (Z.ltb_lt per_page 0) Hneg). by rewrite orb_true_r.
  - intros pg Hok. destruct (decide (per_page = 0%Z)) as [->|Hne].
    + rewrite Z.mul_0_r in Hok. cbn in Hok. discriminate.
    + rewrite (proj2 (Z.ltb_lt per_page 0)), orb_true_r in Hok by lia. discriminate.
Qed.

(* --------------------------------------------------------------------- *)
(** ** Create, update, delete *)


(** X14.  A successful [DELETE] removes the row of that key and no other:
    every other key keeps its row, the table is one row shorter, the
    sequence does not move, and a second [DELETE] of the key answers
    404. *)
Theorem delete_removes_that_row (record_id : Z) (db db' : DB) (msg : string) :
  delete_record record_id db = Ok (msg, db') ->
  table db' !! record_id = None /\
  (forall k, k ≠ record_id -> table db' !! k = table db !! k) /\
  S (size (table db')) = size (table db) /\
  next_id db' = next_id db /\
  delete_record record_id db' = Fail (HTTPError 404 "Record not found").
Proof.
  unfold delete_record, first_by_id.
  destruct (table db !! record_id) as [old|] eqn:Hold; [|done].
  intros [= <- <-]. cbn.
  split; [apply lookup_delete_eq|]. split; [intros k Hk; by apply lookup_delete_ne|].
  split; [|split; [done|by rewrite lookup_delete_eq]].
  rewrite map_size_delete, Hold. cbn.
  assert (size (table db) ≠ 0); [|lia].
  intros Hz%map_size_empty_inv. by rewrite Hz in Hold.
Qed.

Lemma changed_false_default {A : Type} `{EqDecision A} (new : option (option A))
    (old : option A) :
  changed (fun x y => bool_decide (x = y)) new old = false -> default old new = old.
Proof.
  destruct new as [v|]; [|done]. cbn.
  by intros ->%negb_false_iff%bool_decide_eq_true.
Qed.

(** What [PUT] stores, field by field. *)
Lemma update_record_Ok (now : Timestamp) (record_id : Z) (record : RecordUpdate)
    (db db' : DB) (row : Row) :
  update_record now record_id record db = Ok (row, db') ->
  exists old,
    table db !! record_id = Some old /\
    db' = {| table := <[record_id := row]> (table db); next_id := next_id db |} /\
    ((net_change record old = false /\ row = old) \/
     (net_change record old = true /\
      row = {| id := id old;
               name := default (name old) (set_name record);
               age := default (age old) (set_age record);
               salary := default (salary old) (set_salary record);
               department := default (department old) (set_department record);
               experience := default (experience old) (set_experience record);
               created_at := created_at old;
               updated_at := Some now |})).
Proof.
  unfold update_record, first_by_id.
  destruct (table db !! record_id) as [old|] eqn:Hold; [|done].
  intros [= <- <-]. exists old. split; [done|]. split; [done|].
  destruct (net_change record old); [right|left]; done.
Qed.

(** The row a successful [PUT] stores, against the row it found. *)
Lemma update_record_fields (now : Timestamp) (record_id : Z) (record : RecordUpdate)
    (db db' : DB) (row : Row) :
  update_record now record_id record db = Ok (row, db') ->
  exists old,
    table db !! record_id = Some old /\
    table db' !! record_id = Some row /\
    id row = id old /\ created_at row = created_at old /\
    name row = default (name old) (set_name record) /\
    age row = default (age old) (set_age record) /\
    department row = default (department old) (set_department record) /\
    experience row = default (experience old) (set_experience record) /\
    match set_salary record with
    | None => salary row = salary old
    | Some v => salary row = v \/ salary_eqb v (salary row) = true
    end /\
    (updated_at row = updated_at old \/ updated_at row = Some now) /\
    (forall k, k ≠ record_id -> table db' !! k = table db !! k) /\
    size (table db') = size (table db) /\
    next_id db' = next_id db.
Proof.
  intros (old & Hold & -> & Hrow)%update_record_Ok. exists old. cbn [table next_id].
  split; [done|]. split; [apply lookup_insert_eq|].
  assert (Hrest : (forall k, k ≠ record_id ->
                     <[record_id := row]> (table db) !! k = table db !! k) /\
                  size (<[record_id := row]> (table db)) = size (table db) /\
                  next_id db = next_id db).
  { split; [intros k Hk; by apply lookup_insert_ne|]. split; [|done].
    apply map_size_insert_Some. by eexists. }
  destruct Hrow as [[Hnet ->]|[Hnet ->]].
  - unfold net_change in Hnet.
    apply orb_false_iff in Hnet as [Hnet H5].
    apply orb_false_iff in Hnet as [Hnet H4].
    apply orb_false_iff in Hnet as [Hnet H3].
    apply orb_false_iff in Hnet as [H1 H2].
    rewrite (changed_false_default _ _ H1), (changed_false_default _ _ H2),
      (changed_false_default _ _ H4), (changed_false_default _ _ H5).
    do 6 (split; [done|]). split; [|split; [by left|done]].
    destruct (set_salary record) as [v|]; [|done]. right.
    by apply negb_false_iff in H3.
  - cbn. do 6 (split; [done|]). split; [|split; [by right|done]].
    destruct (set_salary record) as [v|]; [by left|done].
Qed.

(** X15.  A successful [PUT] touches the row of that key only: the key
    and [created_at] stay, a field that was not sent keeps its stored
    value, a text or integer field that was sent holds the value sent
    (null included) and a salary that was sent holds a value equal to it,
    [updated_at] stays or becomes the time of the update, no other row
    changes and the table keeps its size. *)
Theorem update_sets_sent_fields (now : Timestamp) (record_id : Z) (record : RecordUpdate)
    (db db' : DB) (row : Row) :
  update_record now record_id record db = Ok (row, db') ->
  exists old,
    table db !! record_id = Some old /\
    table db' !! record_id = Some row /\
    id row = id old /\ created_at row = created_at old /\
    name row = default (name old) (set_name record) /\
    age row = default (age old) (set_age record) /\
    department row = default (department old) (set_department record) /\
    experience row = default (experience old) (set_experience record) /\
    match set_salary record with
    | None => salary row = salary old
    | Some v => salary row = v \/ salary_eqb v (salary row) = true
    end /\
    (updated_at row = updated_at old \/ updated_at row = Some now) /\
    (forall k, k ≠ record_id -> table db' !! k = table db !! k) /\
    size (table db') = size (table db) /\
    next_id db' = next_id db.
Proof. apply update_record_fields. Qed.

Lemma insert_same_row (db : DB) (k : Z) (r : Row) :
  table db !! k = Some r ->
  {| table := <[k := r]> (table db); next_id := next_id db |} = db.
Proof. intros Hk. destruct db as [t n]. cbn in *. by rewrite insert_id. Qed.

Lemma update_record_unchanged (now : Timestamp) (record_id : Z) (record : RecordUpdate)
    (db : DB) (old : Row) :
  table db !! record_id = Some old ->
  net_change record old = false ->
  update_record now record_id record db = Ok (old, db).
Proof.
  intros Hold Hnet. unfold update_record, first_by_id.
  by rewrite Hold, Hnet, insert_same_row.
Qed.

(** X16.  A [PUT] that sends no field, or only values equal to the stored
    ones, changes nothing: it answers with the stored row, [updated_at]
    included, and leaves the table as it was. *)
Theorem update_without_change (now : Timestamp) (record_id : Z) (record : RecordUpdate)
    (db : DB) (old : Row) :
  table db !! record_id = Some old ->
  update_record now record_id (mkRecordUpdate None None None None None) db
  = Ok (old, db) /\
  (net_change record old = false ->
   update_record now record_id record db = Ok (old, db)).
Proof.
  intros Hold. split; [|intros Hnet]; by apply update_record_unchanged.
Qed.

Lemma salary_eqb_refl (v : option float) : v ≠ Some NaN -> salary_eqb v v = true.
Proof.
  destruct v as [[q| | |]|]; cbn; try done. intros _. by apply Qeq_bool_iff.
Qed.

Lemma changed_default {A : Type} (eqb : option A -> option A -> bool)
    (new : option (option A)) (old : option A) :
  (forall v, new = Some v -> eqb v v = true) ->
  changed eqb new (default old new) = false.
Proof.
  intros Hrefl. destruct new as [v|]; [|done]. cbn. by rewrite Hrefl.
Qed.

(** X17.  Sending the same [PUT] again changes nothing more, as long as
    the salary sent is not [NaN]: the second answer is the row the first
    one stored, with the [updated_at] of the first. *)
Theorem update_twice (now later : Timestamp) (record_id : Z) (record : RecordUpdate)
    (db db' : DB) (row : Row) :
  set_salary record ≠ Some (Some NaN) ->
  update_record now record_id record db = Ok (row, db') ->
  update_record later record_id record db' = Ok (row, db').
Proof.
  intros Hnan Hfirst.
  pose proof Hfirst as (old & Hold & -> & Hrow)%update_record_Ok.
  assert (Hstored : table {| table := <[record_id := row]> (table db);
                             next_id := next_id db |} !! record_id = Some row)
    by apply lookup_insert_eq.
  apply (update_record_unchanged later record_id record _ row Hstored).
  destruct Hrow as [[Hnet ->]|[Hnet ->]]; [done|].
  unfold net_change. cbn.
  rewrite !changed_default; [done|..].
  - intros v _. by apply bool_decide_eq_true.
  - intros v _. by apply bool_decide_eq_true.
  - intros v Hv. apply salary_eqb_refl. intros ->. by rewrite Hv in Hnan.
  - intros v _. by apply bool_decide_eq_true.
  - intros v _. by apply bool_decide_eq_true.
Qed.


(** X19.  [PUT] and [DELETE] keep every row under its own key and below
    the sequence: no request can change a primary key or move a row to
    another key. *)
Theorem well_keyed_preserved (now : Timestamp) (record_id : Z) (record : RecordUpdate)
    (db : DB) :
  well_keyed db ->
  (forall row db', update_record now record_id record db = Ok (row, db') ->
     well_keyed db' /\ id row = record_id) /\
  (forall msg db', delete_record record_id db = Ok (msg, db') -> well_keyed db').
Proof.
  intros Hwk. split.
  - intros row db' (old & Hold & -> & Hrow)%update_record_Ok.
    destruct (Hwk _ _ Hold) as [Hid Hlt].
    assert (Hrid : id row = record_id) by (by destruct Hrow as [[_ ->]|[_ ->]]).
    split; [|done]. intros k r. cbn. rewrite lookup_insert. case_decide as Hk.
    + intros [= <-]. by subst k.
    + apply Hwk.
  - intros msg db'. unfold delete_record, first_by_id.
    destruct (table db !! record_id) as [old|]; [|done].
    intros [= <- <-] k row. cbn.
    rewrite lookup_delete. case_decide; [done|apply Hwk].
Qed.



End StoreFacts.

(* ===================================================================== *)
(** * The further properties at work on the example tables *)
(* ===================================================================== *)

Local Open Scope nat_scope.




Lemma stats_keys_partition_witness :
  is_Some (numeric_stats (report_of records_table) !! "age")
  <-> exists s, s ∈ series records_table /\ name s = "age" /\ is_numeric s.
Proof.
  apply (stats_keys_partition records_table (report_of records_table) "age").
  - exact records_table_unique.
  - exact records_table_report.
Defined.



Lemma extreme_bins_not_empty_witness :
  exists e first_count last_count,
    numeric_stats (report_of records_table) !! name age_column = Some e /\
    histogram_values e !! 0 = Some first_count /\
    histogram_values e !! 9 = Some last_count /\
    1 <= first_count /\ 1 <= last_count.
Proof.
  destruct (extreme_bins_not_empty records_table (report_of records_table)
              age_column 20 40)
    as (e & c0 & c9 & H1 & _ & _ & H2 & H3 & H4 & H5).
  - exact records_table_unique.
  - exact records_table_report.
  - exact age_column_in_records.
  - vm_compute. reflexivity.
  - vm_compute. reflexivity.
  - vm_compute. reflexivity.
  - reflexivity.
  - exists e, c0, c9. repeat split; assumption.
Defined.


Lemma values_non_increasing_witness :
  exists e,
    categorical_stats (report_of records_table) !! name department_column = Some e /\
    StronglySorted (fun a b => b <= a) (values e) /\
    sum_list (values e) <= count department_column.
Proof.
  destruct (values_non_increasing records_table (report_of records_table)
              department_column)
    as (e & H1 & H2 & _ & H3 & _).
  - exact records_table_unique.
  - exact records_table_report.
  - exact department_column_in_records.
  - exact department_column_categorical.
  - exists e. repeat split; assumption.
Defined.

Lemma object_column_mapping_agrees_witness :
  exists e,
    categorical_stats (report_of records_table) !! name department_column = Some e /\
    NoDup (labels e) /\
    dict_sum (value_counts e) = sum_list (values e).
Proof.
  destruct (object_column_mapping_agrees records_table (report_of records_table)
              department_column
              [Some "A"; Some "B"; Some "A"; Some "A"; Some "C"])
    as (e & H1 & H2 & _ & _ & H3).
  - exact records_table_unique.
  - exact records_table_report.
  - exact department_column_in_records.
  - reflexivity.
  - exists e. repeat split; assumption.
Defined.






Lemma get_records_bad_page_size_witness :
  Store.get_records example_scan 1 0 example_db = Store.Fail Store.ZeroDivisionError.
Proof.
  apply (StoreFacts.get_records_bad_page_size example_scan 1 0 example_db).
  - lia.
  - reflexivity.
Defined.

Lemma example_db_well_keyed : Store.well_keyed example_db.
Proof.
  intros k r. unfold example_db. cbn [Store.table Store.next_id].
  rewrite !lookup_insert. repeat case_decide; subst;
    first [intros [= <-]; cbn; lia | by rewrite lookup_empty].
Defined.

Lemma example_delete :
  Store.delete_record 2 example_db
  = Store.Ok ("Record deleted successfully",
              {| Store.table := delete 2%Z (Store.table example_db);
                 Store.next_id := 5 |}).
Proof. vm_compute. reflexivity. Defined.

Lemma delete_removes_that_row_witness :
  Store.delete_record 2
    {| Store.table := delete 2%Z (Store.table example_db); Store.next_id := 5 |}
  = Store.Fail (Store.HTTPError 404 "Record not found").
Proof.
  apply (StoreFacts.delete_removes_that_row 2 example_db _ _ example_delete).
Defined.

Lemma example_update_stored :
  exists row db',
    Store.update_record example_time 2 example_update example_db = Store.Ok (row, db').
Proof. eexists _, _. reflexivity. Defined.

Lemma update_sets_sent_fields_witness :
  exists row db' old,
    Store.update_record example_time 2 example_update example_db = Store.Ok (row, db') /\
    Store.table example_db !! 2%Z = Some old /\
    Store.name row = Some "Bea" /\ Store.age row = Store.age old /\
    Store.experience row = None.
Proof.
  destruct example_update_stored as (row & db' & Hrun).
  destruct (StoreFacts.update_sets_sent_fields example_time 2 example_update
              example_db db' row Hrun)
    as (old & H1 & _ & _ & _ & H2 & H3 & _ & H4 & _).
  exists row, db', old. repeat split; assumption.
Defined.

Lemma update_without_change_witness :
  Store.update_record example_time 2 (Store.mkRecordUpdate None None None None None)
    example_db
  = Store.Ok (example_row 2 "Bob" 2, example_db).
Proof.
  apply (StoreFacts.update_without_change example_time 2 example_update example_db).
  vm_compute. reflexivity.
Defined.

Lemma update_twice_witness :
  exists row db',
    Store.update_record example_time 2 example_update example_db = Store.Ok (row, db') /\
    Store.update_record example_time 2 example_update db' = Store.Ok (row, db').
Proof.
  destruct example_update_stored as (row & db' & Hrun).
  exists row, db'. split; [exact Hrun|].
  apply (StoreFacts.update_twice example_time example_time 2 example_update example_db);
    [|exact Hrun].
  vm_compute. discriminate.
Defined.


Lemma well_keyed_preserved_witness :
  Store.well_keyed
    {| Store.table := delete 2%Z (Store.table example_db); Store.next_id := 5 |}.
Proof.
  apply (proj2 (StoreFacts.well_keyed_preserved example_time 2 example_update
                  example_db example_db_well_keyed) _ _ example_delete).
Defined.


